(** * ZenithCare front end: the authentication and session flow

    A shallow embedding of three TypeScript classes of the Angular front
    end,

    - [AuthService] ([auth.service.ts]; in the sources its text follows
      the style sheet in [app/components/home/home.component.scss]),
    - [AuthInterceptor] ([app/auth/auth.interceptor.ts]),
    - [DialogExampleComponent] ([app/signin/signpopup/signpopup.component.ts]),

    together with the few browser and framework primitives they call
    ([localStorage], [BehaviorSubject], [HttpClient], [Router],
    [Math.random], [encodeURIComponent], the Angular form validators).

    The browser is single threaded, so every callback of the program is
    one atomic transformation of the state.  A backend call is two such
    transformations: the subscription, which sends the request, and the
    delivery of the reply, which may happen after any number of other
    callbacks. *)

From Stdlib Require Import ZArith Lia Ascii.
From stdpp Require Import gmap strings list fin_maps.

Local Open Scope Z_scope.

(** ** JavaScript primitives *)

Module Js.

(** A JavaScript string is kept as the bytes of its UTF-8 form, which is
    what a string literal of this file is.  Its [length] is the number of
    its UTF-16 code units: a character of one, two or three bytes is one
    unit, a character of four bytes (outside the basic plane) is a
    surrogate pair, two units.  A byte contributes by its leading bits:
    [0xxxxxxx], [110xxxxx] and [1110xxxx] start a character of one unit,
    [11110xxx] starts one of two units, and a continuation byte
    [10xxxxxx] adds nothing. *)
Definition utf16_units (c : ascii) : Z :=
  let n := nat_of_ascii c in
  if (n <? 128)%nat then 1
  else if (n <? 192)%nat then 0
  else if (n <? 240)%nat then 1
  else 2.

(** [s.length] *)
Fixpoint length (s : string) : Z :=
  match s with
  | EmptyString => 0
  | String c s' => utf16_units c + length s'
  end.

(** [ToBoolean]: which values take the then-branch of an [if] and stop
    an [||].  A string is truthy when it is not empty; [null] and
    [undefined] (here [None]) are falsy. *)
Class Truthy (A : Type) := truthy : A → bool.

#[export] Instance string_truthy : Truthy string :=
  fun s => match s with EmptyString => false | String _ _ => true end.

#[export] Instance option_truthy {A} `{Truthy A} : Truthy (option A) :=
  fun o => match o with Some a => truthy a | None => false end.

(** [a || b] on a possibly undefined string with a string default. *)
Definition or_else (a : option string) (b : string) : string :=
  match a with
  | Some s => if truthy s then s else b
  | None => b
  end.

(** [s.startsWith(p)] *)
Fixpoint startsWith (s p : string) : bool :=
  match p with
  | EmptyString => true
  | String c p' =>
      match s with
      | EmptyString => false
      | String d s' => if Ascii.eqb d c then startsWith s' p' else false
      end
  end.

(** [s.charAt(i)]: the one-unit string at position [i], or the empty
    string when [i] is out of range.  It is used on [chars] only, a string
    of ASCII characters, where bytes and code units are the same. *)
Definition charAt (s : string) (i : Z) : string :=
  if i <? 0 then EmptyString
  else match String.get (Z.to_nat i) s with
       | Some c => String c EmptyString
       | None => EmptyString
       end.

(** [s.includes(c)] for a single code unit [c] *)
Fixpoint includes (s : string) (c : ascii) : bool :=
  match s with
  | EmptyString => false
  | String d s' => Ascii.eqb c d || includes s' c
  end.

(** Every code unit of [s] satisfies [p]. *)
Fixpoint every (p : ascii → bool) (s : string) : bool :=
  match s with
  | EmptyString => true
  | String c s' => p c && every p s'
  end.

(** *** Numbers

    [Math.random()] returns a binary64 number in the interval [0, 1).
    Every such number is [mant * 2^(-expo)] for an integer significand
    below [2^53] and an exponent between 53 and 1074; a draw is kept in
    that form. *)
Record Draw := { mant : Z; expo : Z }.

Definition unit_interval (d : Draw) : Prop :=
  0 ≤ mant d < 2 ^ 53 ∧ 53 ≤ expo d ≤ 1074.

(** Round the non-negative integer [p] to a multiple of [2^s], to the
    nearest one and to the even one on a tie; the result is given in
    units of [2^s]. *)
Definition round_half_even (p s : Z) : Z :=
  let q := p / 2 ^ s in
  let r := p mod 2 ^ s in
  if 2 * r <? 2 ^ s then q
  else if 2 ^ s <? 2 * r then q + 1
  else if Z.even q then q else q + 1.

(** [d * n] for a draw [d] and a small integer [n], as binary64
    multiplication computes it: the exact product [mant d * n] (in units
    of [2^(-expo d)]) keeps its 53 leading bits, rounded to nearest even.
    The result is again in units of [2^(-expo d)]. *)
Definition mul (d : Draw) (n : Z) : Z :=
  let p := mant d * n in
  let s := Z.max 0 (Z.log2 p + 1 - 53) in
  round_half_even p s * 2 ^ s.

(** [Math.floor(d * n)] *)
Definition floor_mul (d : Draw) (n : Z) : Z := mul d n / 2 ^ expo d.

(** *** [encodeURIComponent]

    Letters, digits and [- _ . ! ~ * ' ( )] stay; every other code unit
    becomes [%XX] with upper-case hexadecimal digits (for ASCII, which is
    all the program passes, this is the UTF-8 escape). *)
Definition is_upper (c : ascii) : bool :=
  let n := nat_of_ascii c in (65 <=? n)%nat && (n <=? 90)%nat.
Definition is_lower (c : ascii) : bool :=
  let n := nat_of_ascii c in (97 <=? n)%nat && (n <=? 122)%nat.
Definition is_digit (c : ascii) : bool :=
  let n := nat_of_ascii c in (48 <=? n)%nat && (n <=? 57)%nat.
Definition is_alnum (c : ascii) : bool :=
  is_upper c || is_lower c || is_digit c.

Definition is_mark (c : ascii) : bool :=
  existsb (Ascii.eqb c)
    ["-"; "_"; "."; "!"; "~"; "*"; "'"; "("; ")"]%char.

Definition uri_unreserved (c : ascii) : bool := is_alnum c || is_mark c.

Definition hex_digit (n : nat) : ascii :=
  match String.get n "0123456789ABCDEF" with
  | Some c => c
  | None => "0"%char
  end.

Definition percent_encode (c : ascii) : string :=
  let n := nat_of_ascii c in
  String "%" (String (hex_digit (n / 16)) (String (hex_digit (n mod 16)) EmptyString)).

Fixpoint encodeURIComponent (s : string) : string :=
  match s with
  | EmptyString => EmptyString
  | String c s' =>
      (if uri_unreserved c then String c EmptyString else percent_encode c)
      +:+ encodeURIComponent s'
  end.

End Js.

Import Js.

(** An [any] payload that the program only passes along (a user record,
    registration data): [null], or a value kept as its JSON text. *)
Inductive Json :=
| JNull
| JValue (text : string).

(** ** The HTTP layer ([@angular/common/http]) *)

Inductive Method := GET | POST.

(** A query parameter is a string, or an array when the name is repeated;
    an array is truthy even when empty. *)
Inductive ParamValue :=
| PStr (s : string)
| PList (l : list string).

#[global] Instance param_truthy : Truthy ParamValue :=
  fun v => match v with PStr s => truthy s | PList _ => true end.

(** The request bodies the program builds. *)
Inductive Body :=
| NoBody
| LoginBody (email password : string)        (* [{ email, password }] *)
| RegisterBody (userData : Json)
| LinkedInBody (code : ParamValue).          (* [{ code }] *)

(** [HttpHeaders] maps a lower-cased header name to its values. *)
Record HttpRequest := {
  method : Method;
  url : string;
  headers : gmap string (list string);
  body : Body;
}.

(** [request.clone({ setHeaders: { Authorization: value } })]: the header
    is set (any former values are replaced), the rest is kept. *)
Definition clone_setAuthorization (request : HttpRequest) (value : string) : HttpRequest :=
  {| method := method request;
     url := url request;
     headers := <["authorization" := [value]]> (headers request);
     body := body request |}.

(** What the backend answers on the authentication routes, and the error
    an [HttpClient] observable fails with.  [message] is
    [error.error?.message]. *)
Record AuthResponse := { token : string; user : Json }.

Record HttpErrorResponse := { status : Z; message : option string }.

Inductive Notification (A : Type) :=
| Next (a : A)
| Error (e : HttpErrorResponse).
Arguments Next {A} a.
Arguments Error {A} e.

(** ** The state of the page *)

(** What the program does to the outside, in order. *)
Inductive Event :=
| EvSetItem (key value : string)       (* [localStorage.setItem] *)
| EvRemoveItem (key : string)          (* [localStorage.removeItem] *)
| EvUser (u : Json)                    (* a value pushed to the observers of [user$] *)
| EvNavigate (commands : list string)  (* [router.navigate] *)
| EvHttp (request : HttpRequest)       (* a request handed to the HTTP handler *)
| EvLocation (href : string).          (* [window.location.href = href] *)

Record World := {
  localStorage : gmap string string;
  userSubject : Json;            (* the current value of the [BehaviorSubject] *)
  entropy : nat → Draw;          (* the results of [Math.random()], call by call *)
  random_calls : nat;            (* how many of them have been consumed *)
  trace : list Event;
}.

Definition log (e : Event) (w : World) : World :=
  {| localStorage := localStorage w; userSubject := userSubject w;
     entropy := entropy w; random_calls := random_calls w;
     trace := trace w ++ [e] |}.

Definition getItem (key : string) (w : World) : option string :=
  localStorage w !! key.

Definition setItem (key value : string) (w : World) : World :=
  log (EvSetItem key value)
    {| localStorage := <[key := value]> (localStorage w); userSubject := userSubject w;
       entropy := entropy w; random_calls := random_calls w; trace := trace w |}.

Definition removeItem (key : string) (w : World) : World :=
  log (EvRemoveItem key)
    {| localStorage := delete key (localStorage w); userSubject := userSubject w;
       entropy := entropy w; random_calls := random_calls w; trace := trace w |}.

(** [userSubject.next(u)]: the value is stored and pushed to the
    subscribers of [user$]. *)
Definition userSubject_next (u : Json) (w : World) : World :=
  log (EvUser u)
    {| localStorage := localStorage w; userSubject := u;
       entropy := entropy w; random_calls := random_calls w; trace := trace w |}.

Definition router_navigate (commands : list string) (w : World) : World :=
  log (EvNavigate commands) w.

(** [Math.random()] *)
Definition Math_random (w : World) : Draw * World :=
  (entropy w (random_calls w),
   {| localStorage := localStorage w; userSubject := userSubject w;
      entropy := entropy w; random_calls := S (random_calls w); trace := trace w |}).

(** The world after [n] more calls of [Math.random()]. *)
Definition consume (n : nat) (w : World) : World :=
  {| localStorage := localStorage w; userSubject := userSubject w;
     entropy := entropy w; random_calls := (random_calls w + n)%nat; trace := trace w |}.

(** The requests sent so far, and the values the observers have seen. *)
Definition requests (w : World) : list HttpRequest :=
  omap (fun e => match e with EvHttp r => Some r | _ => None end) (trace w).

Definition emitted (w : World) : list Json :=
  omap (fun e => match e with EvUser u => Some u | _ => None end) (trace w).

Definition navigations (w : World) : list (list string) :=
  omap (fun e => match e with EvNavigate c => Some c | _ => None end) (trace w).

(** ** Observables ([rxjs])

    The observables of the program all come from [HttpClient]: nothing
    happens until a subscription, which sends [source]; the reply is one
    [Notification].  [tap] adds a side effect to run on a value before the
    subscriber sees it; an error skips it. *)
Record Observable (A : Type) := {
  source : HttpRequest;
  effects : A → World → World;
}.
Arguments source {A} o.
Arguments effects {A} o a w.

Definition http_get {A} (u : string) : Observable A :=
  {| source := {| method := GET; url := u; headers := ∅; body := NoBody |};
     effects := fun _ w => w |}.

Definition http_post {A} (u : string) (b : Body) : Observable A :=
  {| source := {| method := POST; url := u; headers := ∅; body := b |};
     effects := fun _ w => w |}.

Definition tap {A} (f : A → World → World) (o : Observable A) : Observable A :=
  {| source := source o;
     effects := fun a w => f a (effects o a w) |}.

(** A subscriber works on a state [S] that contains the world. *)
Class HasWorld (S : Type) := on_world : (World → World) → S → S.

#[global] Instance world_has_world : HasWorld World := fun f w => f w.

Record Observer (S A : Type) := {
  next : A → S → S;
  error : HttpErrorResponse → S → S;
}.
Arguments next {S A} o a s.
Arguments error {S A} o e s.

(** [o.subscribe(...)]: the request leaves. *)
Definition subscribe {S A} `{HasWorld S} (o : Observable A) (s : S) : S :=
  on_world (log (EvHttp (source o))) s.

(** The reply arrives at a subscription of [o] with observer [obs]. *)
Definition deliver {S A} `{HasWorld S}
    (o : Observable A) (obs : Observer S A) (n : Notification A) (s : S) : S :=
  match n with
  | Next a => next obs a (on_world (effects o a) s)
  | Error e => error obs e s
  end.

(** ** [AuthService] ([auth.service.ts]) *)

Module AuthService.

Definition apiUrl : string := "http://localhost:3000/api".
Definition tokenKey : string := "auth_token".

(** The getter [currentUserValue] *)
Definition currentUserValue (w : World) : Json := userSubject w.

Definition getToken (w : World) : option string := getItem tokenKey w.

Definition setToken (token : string) (w : World) : World := setItem tokenKey token w.

Definition isAuthenticated (w : World) : bool := truthy (getToken w).

Definition login (email password : string) : Observable AuthResponse :=
  tap (fun response w =>
         userSubject_next (user response) (setToken (token response) w))
      (http_post (apiUrl +:+ "/auth/login") (LoginBody email password)).

Definition register (userData : Json) : Observable Json :=
  http_post (apiUrl +:+ "/auth/register") (RegisterBody userData).

Definition loginWithLinkedIn (code : ParamValue) : Observable AuthResponse :=
  tap (fun response w =>
         userSubject_next (user response) (setToken (token response) w))
      (http_post (apiUrl +:+ "/auth/linkedin") (LinkedInBody code)).

Definition getUserProfile : Observable Json :=
  tap (fun user w => userSubject_next user w)
      (http_get (apiUrl +:+ "/users/me")).

Definition logout (w : World) : World :=
  router_navigate ["/login"] (userSubject_next JNull (removeItem tokenKey w)).

(** [loadUser] subscribes to the profile with an error handler only. *)
Definition loadUser_observer : Observer World Json :=
  {| next := fun _ w => w;
     error := fun _ w => logout w |}.

Definition loadUser (w : World) : World :=
  let token := getToken w in
  if truthy token then subscribe getUserProfile w else w.

(** The reply to the request of [loadUser]. *)
Definition loadUser_reply (n : Notification Json) (w : World) : World :=
  deliver getUserProfile loadUser_observer n w.

(** The constructor: the subject starts at [null], then [loadUser]. *)
Definition constructor (storage : gmap string string) (rnd : nat → Draw) : World :=
  loadUser {| localStorage := storage; userSubject := JNull;
              entropy := rnd; random_calls := 0%nat; trace := [] |}.

Definition chars : string :=
  "ABCDEFGHIJKLMNOPQRSTUVWXYZabcdefghijklmnopqrstuvwxyz0123456789".

(** The loop of [generateRandomString]: [i] more rounds, each appending
    [chars.charAt(Math.floor(Math.random() * chars.length))]. *)
Fixpoint generateRandomString_loop (i : nat) (result : string) (w : World)
    : string * World :=
  match i with
  | O => (result, w)
  | S i' =>
      let '(r, w') := Math_random w in
      generateRandomString_loop i'
        (result +:+ charAt chars (floor_mul r (Js.length chars))) w'
  end.

Definition generateRandomString (length : nat) (w : World) : string * World :=
  generateRandomString_loop length "" w.

Definition getLinkedInAuthUrl (w : World) : string * World :=
  let clientId := "YOUR_LINKEDIN_CLIENT_ID" in
  let redirectUri := encodeURIComponent "http://localhost:4200/login" in
  let '(state, w1) := generateRandomString 16 w in
  let w2 := setItem "linkedin_state" state w1 in
  ("https://www.linkedin.com/oauth/v2/authorization?response_type=code&client_id="
     +:+ clientId +:+ "&redirect_uri=" +:+ redirectUri +:+ "&state=" +:+ state
     +:+ "&scope=r_liteprofile%20r_emailaddress",
   w2).

End AuthService.

(** ** [AuthInterceptor] ([auth.interceptor.ts]) *)

(** [environments/environment.ts] is not part of the sources; its
    [apiUrl] is a parameter, [None] when it is not defined. *)
Record Environment := { environment_apiUrl : option string }.

Module AuthInterceptor.

(** [`Bearer ${token}`] *)
Definition bearer (token : option string) : string :=
  "Bearer " +:+ match token with Some t => t | None => "null" end.

(** [intercept(request, next)]; [next_handle] is [next.handle]. *)
Definition intercept {R} (environment : Environment) (w : World)
    (request : HttpRequest) (next_handle : HttpRequest → R) : R :=
  let currentUser := AuthService.currentUserValue w in
  let token := AuthService.getToken w in
  let apiUrl := or_else (environment_apiUrl environment) "http://localhost:3000/api" in
  let isApiUrl := startsWith (url request) apiUrl in
  let request :=
    if truthy token && isApiUrl
    then clone_setAuthorization request (bearer token)
    else request in
  next_handle request.

End AuthInterceptor.

(** ** [DialogExampleComponent] ([signpopup.component.ts]) *)

Module Validators.

(** The validators of [@angular/forms] report an error ([true]) or
    none.  [minLength] and [email] accept the empty value, which is
    [required]'s business.  The pattern of [email] belongs to the
    framework and is a parameter, [EMAIL_REGEXP]. *)
Definition required (value : string) : bool := negb (truthy value).

Definition minLength (n : Z) (value : string) : bool :=
  truthy value && (Js.length value <? n).

Definition email (EMAIL_REGEXP : string → bool) (value : string) : bool :=
  truthy value && negb (EMAIL_REGEXP value).

End Validators.

Module DialogExampleComponent.

(** The value of [loginForm] *)
Record FormValue := { email : string; password : string }.

Record Component := {
  loginForm : FormValue;
  errorMessage : string;
  loading : bool;
}.

(** The component and the page it lives in. *)
Definition App : Type := World * Component.

#[global] Instance app_has_world : HasWorld App :=
  fun f s => (f (fst s), snd s).

(** The constructor builds the form with empty controls. *)
Definition constructor : Component :=
  {| loginForm := {| email := ""; password := "" |};
     errorMessage := ""; loading := false |}.

(** [loginForm.invalid]: one of the validators of a control reports an
    error.  [email: ['', [Validators.required, Validators.email]]],
    [password: ['', [Validators.required, Validators.minLength(6)]]] *)
Definition invalid (EMAIL_REGEXP : string → bool) (f : FormValue) : bool :=
  Validators.required (email f) || Validators.email EMAIL_REGEXP (email f)
  || Validators.required (password f) || Validators.minLength 6 (password f).

Definition set_loading (b : bool) (c : Component) : Component :=
  {| loginForm := loginForm c; errorMessage := errorMessage c; loading := b |}.

Definition set_errorMessage (m : string) (c : Component) : Component :=
  {| loginForm := loginForm c; errorMessage := m; loading := loading c |}.

(** [state === savedState], a query parameter against a storage entry:
    [undefined] is not [null], and a repeated parameter (an array) is
    never a string. *)
Definition strict_eq (state : option ParamValue) (savedState : option string) : bool :=
  match state, savedState with
  | Some (PStr a), Some b => String.eqb a b
  | _, _ => false
  end.

(** The observer of the code exchange in [ngOnInit]. *)
Definition exchange_observer : Observer App AuthResponse :=
  {| next := fun _ s => (router_navigate ["/dashboard"] (fst s), snd s);
     error := fun _ s =>
       (fst s,
        set_loading false
          (set_errorMessage "LinkedIn login failed. Please try again." (snd s))) |}.

(** [ngOnInit]: the callback on the query parameters of the route.
    An absent [code] is [undefined], which fails the test. *)
Definition ngOnInit (params : gmap string ParamValue) (s : App) : App :=
  let state := params !! "state" in
  let savedState := getItem "linkedin_state" (fst s) in
  match params !! "code" with
  | Some code =>
      if truthy code && truthy state && strict_eq state savedState then
        let s1 := (fst s, set_loading true (snd s)) in
        let s2 := (removeItem "linkedin_state" (fst s1), snd s1) in
        subscribe (AuthService.loginWithLinkedIn code) s2
      else s
  | None => s
  end.

(** The reply to the code exchange. *)
Definition ngOnInit_reply (code : ParamValue) (n : Notification AuthResponse) (s : App) : App :=
  deliver (AuthService.loginWithLinkedIn code) exchange_observer n s.

(** The observer of the login in [onSubmit]. *)
Definition login_observer : Observer App AuthResponse :=
  {| next := fun _ s => (router_navigate ["/dashboard"] (fst s), snd s);
     error := fun e s =>
       (fst s,
        set_loading false
          (set_errorMessage (or_else (message e) "Invalid email or password") (snd s))) |}.

Definition onSubmit (EMAIL_REGEXP : string → bool) (s : App) : App :=
  if invalid EMAIL_REGEXP (loginForm (snd s)) then s
  else
    let s1 := (fst s, set_loading true (snd s)) in
    let f := loginForm (snd s1) in
    subscribe (AuthService.login (email f) (password f)) s1.

(** The reply to the login that [onSubmit] sent for [email], [password]. *)
Definition onSubmit_reply (email password : string)
    (n : Notification AuthResponse) (s : App) : App :=
  deliver (AuthService.login email password) login_observer n s.

(** [loginWithLinkedIn]: the page leaves for the provider. *)
Definition loginWithLinkedIn (s : App) : App :=
  let '(href, w) := AuthService.getLinkedInAuthUrl (fst s) in
  (log (EvLocation href) w, snd s).

End DialogExampleComponent.

(** ** The page as a whole

    Everything that can run on the page, one callback at a time: the
    events of the component, the replies of the backend (at any moment,
    in any order), and the calls into the service. *)

Module Page.

Import DialogExampleComponent.

Inductive Callback :=
| QueryParams (params : gmap string ParamValue)   (* the route emits its parameters *)
| ExchangeReply (code : ParamValue) (n : Notification AuthResponse)
| Edit (f : FormValue)                            (* the user types into the form *)
| Submit
| SubmitReply (email password : string) (n : Notification AuthResponse)
| LinkedInButton                                  (* a new redirect to the provider *)
| ProfileReply (n : Notification Json)            (* the reply to [loadUser] *)
| Logout.

Definition run (EMAIL_REGEXP : string → bool) (cb : Callback) (s : App) : App :=
  match cb with
  | QueryParams params => ngOnInit params s
  | ExchangeReply code n => ngOnInit_reply code n s
  | Edit f =>
      (fst s, {| loginForm := f; errorMessage := errorMessage (snd s);
                 loading := loading (snd s) |})
  | Submit => onSubmit EMAIL_REGEXP s
  | SubmitReply email password n => onSubmit_reply email password n s
  | LinkedInButton => loginWithLinkedIn s
  | ProfileReply n => (AuthService.loadUser_reply n (fst s), snd s)
  | Logout => (AuthService.logout (fst s), snd s)
  end.

Definition run_all (EMAIL_REGEXP : string → bool) (cbs : list Callback) (s : App) : App :=
  foldl (fun s cb => run EMAIL_REGEXP cb s) s cbs.

End Page.

(** ** Reading a URL back

    The query parameters of a URL, as the receiving side splits them:
    what follows the first [?], cut at every [&], each piece cut at its
    first [=].  Names and values are left as they are written (still
    percent-encoded). *)

Module Url.

(** [s] up to the first [sep], and what follows it. *)
Fixpoint cut (sep : ascii) (s : string) : string * string :=
  match s with
  | EmptyString => (EmptyString, EmptyString)
  | String c s' =>
      if Ascii.eqb c sep then (EmptyString, s')
      else let '(a, b) := cut sep s' in (String c a, b)
  end.

Fixpoint split_on (sep : ascii) (s : string) : list string :=
  match s with
  | EmptyString => [EmptyString]
  | String c s' =>
      if Ascii.eqb c sep then EmptyString :: split_on sep s'
      else match split_on sep s' with
           | piece :: pieces => String c piece :: pieces
           | [] => [String c EmptyString]
           end
  end.

Definition searchParams (u : string) : string * list (string * string) :=
  let '(endpoint, query) := cut "?" u in
  (endpoint, map (cut "=") (split_on "&" query)).

End Url.

(** ** Sample inputs *)

Module Sample.

(** A random source that walks through the unit interval. *)
Definition rnd (i : nat) : Draw :=
  {| mant := Z.min (2 ^ 53 - 1) (Z.of_nat i * 555555555555555 + 987654321); expo := 53 |}.

Definition world (storage : gmap string string) (u : Json) : World :=
  {| localStorage := storage; userSubject := u; entropy := rnd;
     random_calls := 0%nat; trace := [] |}.

End Sample.


(** ** The nonce in closed form

    What the loop of [generateRandomString] computes, said without the
    loop: the indices that the next [n] results of the random source pick
    in [chars], and the string these indices spell. *)

Module Nonce.




End Nonce.

(** ** The route table ([app.routes.ts])

    The table, and how the router reads a flat table like this one: the
    routes are tried in order; [**] matches every URL; a route without
    children matches when its path is the whole URL; a redirect to an
    absolute URL restarts the search once, and on that second pass
    redirects are not taken any more.  A URL is its list of segments. *)

Module Routes.

Inductive Component :=
| HomeComponent
| HcpComponent
| EmployerComponent
| FormularyComponent
| HospitalComponent.

Inductive PathMatch := prefix | full.

Inductive Action :=
| component (c : Component)
| redirectTo (target : string).

Record Route := { path : string; action : Action; pathMatch : PathMatch }.

Definition routes : list Route :=
  [ {| path := ""; action := redirectTo "/home"; pathMatch := full |};
    {| path := "home"; action := component HomeComponent; pathMatch := prefix |};
    {| path := "hcp"; action := component HcpComponent; pathMatch := prefix |};
    {| path := "employer"; action := component EmployerComponent; pathMatch := prefix |};
    {| path := "formulary"; action := component FormularyComponent; pathMatch := prefix |};
    {| path := "hospital"; action := component HospitalComponent; pathMatch := prefix |};
    {| path := "**"; action := redirectTo "/home"; pathMatch := prefix |} ].

(** The segments of a path: [/home] and [home] are both [["home"]]. *)
Definition segments_of (u : string) : list string :=
  filter (fun seg => seg ≠ "") (Url.split_on "/" u).

Fixpoint is_prefix (p l : list string) : bool :=
  match p, l with
  | [], _ => true
  | x :: p', y :: l' => bool_decide (x = y) && is_prefix p' l'
  | _ :: _, [] => false
  end.

Definition matches (r : Route) (segments : list string) : bool :=
  if bool_decide (path r = "**") then true
  else
    match pathMatch r, action r with
    | prefix, redirectTo _ => is_prefix (segments_of (path r)) segments
    | _, _ => bool_decide (segments = segments_of (path r))
    end.

(** The second pass: redirects do not match. *)
Fixpoint recognize_final (table : list Route) (segments : list string)
    : option (list string * Component) :=
  match table with
  | [] => None
  | r :: table' =>
      match action r with
      | component c =>
          if matches r segments then Some (segments, c)
          else recognize_final table' segments
      | redirectTo _ => recognize_final table' segments
      end
  end.

(** [recognize all table segments]: where a navigation to [segments] ends,
    or [None] when no route matches (the navigation fails).  [all] is the
    whole table, for the pass after a redirect. *)
Fixpoint recognize (all table : list Route) (segments : list string)
    : option (list string * Component) :=
  match table with
  | [] => None
  | r :: table' =>
      if matches r segments then
        match action r with
        | component c => Some (segments, c)
        | redirectTo target => recognize_final all (segments_of target)
        end
      else recognize all table' segments
  end.

Definition navigate (segments : list string) : option (list string * Component) :=
  recognize routes routes segments.

End Routes.

(** * Properties *)

(** ** Strings *)

Lemma append_cons (c : ascii) (a b : string) :
  String c a +:+ b = String c (a +:+ b).
Proof. reflexivity. Qed.

Lemma append_nil_r (s : string) : s +:+ "" = s.
Proof. induction s as [|c s IH]; [done | by rewrite append_cons, IH]. Qed.

Lemma append_assoc (a b c : string) : (a +:+ b) +:+ c = a +:+ b +:+ c.
Proof. induction a as [|x a IH]; [done | by rewrite !append_cons, IH]. Qed.

Lemma length_append (a b : string) :
  String.length (a +:+ b) = (String.length a + String.length b)%nat.
Proof. induction a as [|x a IH]; [done | by rewrite append_cons; simpl; rewrite IH]. Qed.

Lemma every_append p (a b : string) :
  every p (a +:+ b) = every p a && every p b.
Proof.
  induction a as [|x a IH]; [done |].
  rewrite append_cons. simpl. rewrite IH. by destruct (p x).
Qed.

Lemma every_get p (s : string) (n : nat) (c : ascii) :
  every p s = true → String.get n s = Some c → p c = true.
Proof.
  revert n. induction s as [|x s IH]; intros n Hall Hget; [by destruct n |].
  simpl in Hall. apply andb_prop in Hall as [Hx Hs].
  destruct n as [|n]; simpl in Hget.
  - by injection Hget as <-.
  - by eapply IH.
Qed.

Lemma get_in_range (s : string) (n : nat) :
  (n < String.length s)%nat → is_Some (String.get n s).
Proof.
  revert n. induction s as [|x s IH]; intros n Hn; simpl in Hn; [lia |].
  destruct n as [|n]; simpl; [by eexists |]. apply IH. lia.
Qed.

Lemma every_weaken (p q : ascii → bool) (s : string) :
  (∀ c, p c = true → q c = true) → every p s = true → every q s = true.
Proof.
  intros Hpq. induction s as [|x s IH]; simpl; [done |].
  intros [Hx Hs]%andb_prop. rewrite (Hpq _ Hx). by rewrite IH.
Qed.

(** ** Numbers *)

Lemma round_half_even_bounds (p s : Z) :
  0 ≤ p → 0 ≤ s →
  0 ≤ round_half_even p s * 2 ^ s ∧ 2 * (round_half_even p s * 2 ^ s) ≤ 2 * p + 2 ^ s.
Proof.
  intros Hp Hs. unfold round_half_even.
  assert (0 < 2 ^ s) as HB by (apply Z.pow_pos_nonneg; lia).
  pose proof (Z.div_mod p (2 ^ s) ltac:(lia)) as Hdm.
  pose proof (Z.mod_pos_bound p (2 ^ s) HB) as Hr.
  assert (0 ≤ p / 2 ^ s) as Hq by (apply Z.div_pos; lia).
  set (q := p / 2 ^ s) in *. set (r := p mod 2 ^ s) in *.
  set (B := 2 ^ s) in *.
  repeat case_match; rewrite ?Z.ltb_lt, ?Z.ltb_ge in *; nia.
Qed.

(** The product of a draw with 62 stays below 62 after rounding, so its
    floor is an index into the 62 characters. *)
Lemma floor_mul_62 (d : Draw) :
  unit_interval d → 0 ≤ floor_mul d 62 < 62.
Proof.
  intros [[Hm0 Hm1] [He0 He1]]. unfold floor_mul, mul.
  set (p := mant d * 62).
  assert (0 ≤ p ≤ 62 * 2 ^ 53 - 62) as Hp by (unfold p; lia).
  set (s := Z.max 0 (Z.log2 p + 1 - 53)).
  assert (0 ≤ s ≤ 6) as Hs.
  { unfold s. destruct (Z.eq_dec p 0) as [->|Hne]; [simpl; lia |].
    assert (Z.log2 p < 59); [|lia].
    apply Z.log2_lt_pow2; lia. }
  destruct (round_half_even_bounds p s) as [Hlo Hhi]; [lia.. |].
  assert (2 ^ s ≤ 2 ^ 6) as HB by (apply Z.pow_le_mono_r; lia).
  assert (2 ^ 53 ≤ 2 ^ expo d) as HE by (apply Z.pow_le_mono_r; lia).
  split.
  - apply Z.div_pos; lia.
  - apply Z.div_lt_upper_bound; [lia |].
    change (2 ^ 6) with 64 in HB. lia.
Qed.

Lemma every_includes_get (s : string) (n : nat) (c : ascii) :
  String.get n s = Some c → includes s c = true.
Proof.
  revert n. induction s as [|x s IH]; intros n Hget; [by destruct n |].
  destruct n as [|n]; simpl in *.
  - injection Hget as ->. by rewrite Ascii.eqb_refl.
  - rewrite (IH _ Hget). by rewrite orb_true_r.
Qed.

(** ** The nonce *)

Lemma chars_length : Js.length AuthService.chars = 62.
Proof. reflexivity. Qed.

Lemma chars_alnum (c : ascii) :
  includes AuthService.chars c = true → is_alnum c = true.
Proof. destruct c as [[] [] [] [] [] [] [] []]; vm_compute; congruence. Qed.

Lemma alnum_unreserved (c : ascii) : is_alnum c = true → uri_unreserved c = true.
Proof. unfold uri_unreserved. by intros ->. Qed.

Lemma alnum_not_amp (c : ascii) :
  is_alnum c = true → negb (Ascii.eqb c "&") = true.
Proof. destruct c as [[] [] [] [] [] [] [] []]; vm_compute; congruence. Qed.

(** One round of the loop appends nothing or one character of [chars],
    and exactly one when the draw is in the unit interval. *)
Lemma charAt_chars (i : Z) :
  every (includes AuthService.chars) (charAt AuthService.chars i) = true
  ∧ (String.length (charAt AuthService.chars i) ≤ 1)%nat
  ∧ (0 ≤ i < 62 → String.length (charAt AuthService.chars i) = 1%nat).
Proof.
  unfold charAt. destruct (i <? 0) eqn:Hneg.
  - apply Z.ltb_lt in Hneg. repeat split; simpl; lia.
  - destruct (String.get (Z.to_nat i) AuthService.chars) as [c|] eqn:Hget.
    + split; [| simpl; lia].
      cbn [every]. by rewrite (every_includes_get _ _ _ Hget).
    + repeat split; simpl; try lia. intros Hi.
      destruct (get_in_range AuthService.chars (Z.to_nat i)) as [c Hc].
      * change (String.length AuthService.chars) with 62%nat. lia.
      * congruence.
Qed.

Lemma consume_0 (w : World) : consume 0 w = w.
Proof. destruct w. unfold consume; simpl. by rewrite Nat.add_0_r. Qed.

Lemma consume_consume (n m : nat) (w : World) :
  consume n (consume m w) = consume (m + n) w.
Proof. unfold consume; simpl. f_equal. lia. Qed.

Lemma generateRandomString_loop_S (i : nat) (result : string) (w : World) :
  AuthService.generateRandomString_loop (S i) result w =
  AuthService.generateRandomString_loop i
    (result +:+ charAt AuthService.chars (floor_mul (entropy w (random_calls w)) 62))
    (consume 1 w).
Proof.
  cbn [AuthService.generateRandomString_loop Math_random]. rewrite chars_length.
  do 2 f_equal. unfold consume. f_equal. lia.
Qed.

Lemma generateRandomString_loop_spec (i : nat) :
  ∀ (result : string) (w : World), ∃ suffix : string,
    AuthService.generateRandomString_loop i result w = (result +:+ suffix, consume i w)
    ∧ every (includes AuthService.chars) suffix = true
    ∧ ((∀ k, unit_interval (entropy w k)) → String.length suffix = i).
Proof.
  induction i as [|i IH]; intros result w.
  - exists "". rewrite append_nil_r, consume_0. by repeat split.
  - rewrite generateRandomString_loop_S.
    set (ch := charAt AuthService.chars (floor_mul (entropy w (random_calls w)) 62)).
    destruct (IH (result +:+ ch) (consume 1 w)) as (suffix & Hrun & Hall & Hlen).
    exists (ch +:+ suffix).
    destruct (charAt_chars (floor_mul (entropy w (random_calls w)) 62))
      as (Hch & _ & Hch1). fold ch in Hch, Hch1.
    rewrite Hrun, append_assoc, consume_consume. split; [done | split].
    + by rewrite every_append, Hch, Hall.
    + intros Hrnd. rewrite length_append, Hlen by exact Hrnd.
      rewrite Hch1; [done |]. by apply floor_mul_62.
Qed.

Lemma generateRandomString_spec (n : nat) (w : World) :
  ∃ nonce : string,
    AuthService.generateRandomString n w = (nonce, consume n w)
    ∧ every (includes AuthService.chars) nonce = true
    ∧ ((∀ k, unit_interval (entropy w k)) → String.length nonce = n).
Proof.
  destruct (generateRandomString_loop_spec n "" w) as (suffix & Hrun & Hall & Hlen).
  exists suffix. split; [exact Hrun | done].
Qed.

Lemma encodeURIComponent_unreserved (s : string) :
  every uri_unreserved s = true → encodeURIComponent s = s.
Proof.
  induction s as [|c s IH]; simpl; [done |].
  intros [Hc Hs]%andb_prop. by rewrite Hc, IH.
Qed.

(** C10: every nonce that [getLinkedInAuthUrl] produces for the OAuth
    redirect (the one it stores and puts in the URL) has exactly 16
    characters, each one of the 62 distinct ASCII letters and digits of
    [chars]; so [encodeURIComponent] would leave it as it is.  The random
    source is assumed to return numbers of the unit interval. *)
Theorem nonce_is_16_alphanumerics (w : World) :
  (∀ k, unit_interval (entropy w k)) →
  ∃ nonce : string,
    fst (AuthService.generateRandomString 16 w) = nonce
    ∧ getItem "linkedin_state" (snd (AuthService.getLinkedInAuthUrl w)) = Some nonce
    ∧ String.length nonce = 16%nat
    ∧ every (includes AuthService.chars) nonce = true
    ∧ every is_alnum nonce = true
    ∧ Js.length AuthService.chars = 62
    ∧ NoDup (String.list_ascii_of_string AuthService.chars)
    ∧ encodeURIComponent nonce = nonce.
Proof.
  intros Hrnd.
  destruct (generateRandomString_spec 16 w) as (nonce & Hgen & Hall & Hlen).
  exists nonce.
  assert (every is_alnum nonce = true) as Halnum
    by (eapply every_weaken; [apply chars_alnum | exact Hall]).
  unfold AuthService.getLinkedInAuthUrl. rewrite Hgen.
  split; [reflexivity |]. split; [apply lookup_insert_eq |].
  split; [by apply Hlen |]. split; [exact Hall |]. split; [exact Halnum |].
  split; [reflexivity |]. split.
  - apply (bool_decide_unpack _). by vm_compute.
  - apply encodeURIComponent_unreserved.
    eapply every_weaken; [apply alnum_unreserved | exact Halnum].
Qed.

Lemma nonce_is_16_alphanumerics_witness :
  ∃ nonce : string,
    fst (AuthService.generateRandomString 16 (Sample.world ∅ JNull)) = nonce
    ∧ getItem "linkedin_state"
        (snd (AuthService.getLinkedInAuthUrl (Sample.world ∅ JNull))) = Some nonce
    ∧ String.length nonce = 16%nat
    ∧ every (includes AuthService.chars) nonce = true
    ∧ every is_alnum nonce = true
    ∧ Js.length AuthService.chars = 62
    ∧ NoDup (String.list_ascii_of_string AuthService.chars)
    ∧ encodeURIComponent nonce = nonce.
Proof.
  apply (nonce_is_16_alphanumerics (Sample.world ∅ JNull)).
  intros k. unfold unit_interval; simpl. lia.
Defined.

(** ** The authorization URL *)

Lemma cut_append (sep : ascii) (a b : string) :
  every (fun c => negb (Ascii.eqb c sep)) a = true →
  Url.cut sep (a +:+ String sep b) = (a, b).
Proof.
  induction a as [|x a IH]; intros Ha.
  - simpl. by rewrite Ascii.eqb_refl.
  - simpl in Ha. apply andb_prop in Ha as [Hx Ha].
    rewrite append_cons. simpl. apply negb_true_iff in Hx. rewrite Hx.
    by rewrite IH.
Qed.

Lemma split_on_nonempty (sep : ascii) (s : string) : Url.split_on sep s ≠ [].
Proof.
  destruct s as [|x s]; simpl; [done |].
  destruct (Ascii.eqb x sep); [done |]. by destruct (Url.split_on sep s).
Qed.

Lemma split_on_append (sep : ascii) (a b : string) :
  Url.split_on sep (a +:+ String sep b) = Url.split_on sep a ++ Url.split_on sep b.
Proof.
  induction a as [|x a IH].
  - simpl. by rewrite Ascii.eqb_refl.
  - rewrite append_cons. simpl. rewrite IH.
    destruct (Ascii.eqb x sep); [done |].
    pose proof (split_on_nonempty sep a) as Hne.
    by destruct (Url.split_on sep a).
Qed.

Lemma split_on_none (sep : ascii) (s : string) :
  every (fun c => negb (Ascii.eqb c sep)) s = true → Url.split_on sep s = [s].
Proof.
  induction s as [|x s IH]; intros Hs; [done |].
  simpl in Hs. apply andb_prop in Hs as [Hx Hs].
  simpl. apply negb_true_iff in Hx. rewrite Hx. by rewrite IH.
Qed.












(** ** The session: token and user *)

Lemma log_frame (e : Event) (w : World) :
  localStorage (log e w) = localStorage w
  ∧ userSubject (log e w) = userSubject w
  ∧ trace (log e w) = trace w ++ [e].
Proof. done. Qed.

Lemma subscribe_world {A} (o : Observable A) (w : World) :
  subscribe o w = log (EvHttp (source o)) w.
Proof. done. Qed.

Lemma emitted_log_http (r : HttpRequest) (w : World) :
  emitted (log (EvHttp r) w) = emitted w.
Proof. unfold emitted; simpl. rewrite omap_app; simpl. by rewrite app_nil_r. Qed.

Lemma requests_log_http (r : HttpRequest) (w : World) :
  requests (log (EvHttp r) w) = requests w ++ [r].
Proof. unfold requests; simpl. by rewrite omap_app. Qed.

(** The side effect of a successful login or code exchange: the token
    goes to storage first, then the user goes to the observers. *)
Lemma store_session (r : AuthResponse) (w : World) :
  let w' := userSubject_next (user r) (AuthService.setToken (token r) w) in
  AuthService.getToken w' = Some (token r)
  ∧ localStorage w' = <[AuthService.tokenKey := token r]> (localStorage w)
  ∧ userSubject w' = user r
  ∧ trace w' = trace w ++ [EvSetItem AuthService.tokenKey (token r); EvUser (user r)].
Proof.
  simpl. split; [apply lookup_insert_eq |]. do 2 (split; [done |]).
  by rewrite <- app_assoc.
Qed.

Lemma logout_effect (w : World) :
  AuthService.getToken (AuthService.logout w) = None
  ∧ localStorage (AuthService.logout w) = delete AuthService.tokenKey (localStorage w)
  ∧ userSubject (AuthService.logout w) = JNull
  ∧ trace (AuthService.logout w) =
      trace w ++ [EvRemoveItem AuthService.tokenKey; EvUser JNull; EvNavigate ["/login"]].
Proof.
  simpl. split; [apply lookup_delete_eq |]. do 2 (split; [done |]).
  by rewrite <- !app_assoc.
Qed.

(** C9: from any state, [logout] removes the token from storage, sets the
    user to [null] and pushes that to the observers, and asks the router
    for the login view, in this order and nothing else. *)
Theorem logout_clears_session (w : World) :
  let w' := AuthService.logout w in
  AuthService.getToken w' = None
  ∧ localStorage w' = delete AuthService.tokenKey (localStorage w)
  ∧ userSubject w' = JNull
  ∧ emitted w' = emitted w ++ [JNull]
  ∧ navigations w' = navigations w ++ [["/login"]]
  ∧ trace w' = trace w ++ [EvRemoveItem AuthService.tokenKey; EvUser JNull;
                           EvNavigate ["/login"]].
Proof.
  cbv zeta. destruct (logout_effect w) as (Ht & Hs & Hu & Htr).
  do 3 (split; [done |]).
  split; [| split; [| exact Htr]].
  - unfold emitted. by rewrite Htr, omap_app.
  - unfold navigations. by rewrite Htr, omap_app.
Qed.

(** C7: [register] does not touch the session.  Sending the request leaves
    the stored token, the user and what the observers have seen as they
    were, and so does the reply, success or failure: the subscriber's own
    callback is all that runs. *)
Theorem register_leaves_session (userData : Json) (w : World) :
  let o := AuthService.register userData in
  (AuthService.getToken (subscribe o w) = AuthService.getToken w
   ∧ localStorage (subscribe o w) = localStorage w
   ∧ userSubject (subscribe o w) = userSubject w
   ∧ emitted (subscribe o w) = emitted w)
  ∧ ∀ (obs : Observer World Json) (n : Notification Json) (w1 : World),
      deliver o obs n w1 =
      match n with Next a => next obs a w1 | Error e => error obs e w1 end.
Proof.
  simpl. split.
  - repeat split. apply emitted_log_http.
  - by intros obs [a|e] w1.
Qed.

(** C3: a login attempt, for any observer [obs] of the returned
    observable.  Sending the request changes neither the stored token nor
    the user.  When the backend accepts, the token of the reply is in
    storage and the user of the reply is the current user, pushed to the
    observers of the session after the token was stored; only then the
    subscriber runs.  When the backend rejects, the service changes nothing:
    the subscriber's error callback runs on the unchanged state.  The same
    holds end to end for the login form, whose callbacks touch neither
    token nor user. *)
Theorem login_all_or_nothing (email password : string)
    (obs : Observer World AuthResponse) (w w1 : World)
    (s1 : DialogExampleComponent.App) :
  let o := AuthService.login email password in
  (AuthService.getToken (subscribe o w) = AuthService.getToken w
   ∧ userSubject (subscribe o w) = userSubject w
   ∧ emitted (subscribe o w) = emitted w)
  ∧ (∀ r : AuthResponse, ∃ w2 : World,
       deliver o obs (Next r) w1 = next obs r w2
       ∧ AuthService.getToken w2 = Some (token r)
       ∧ userSubject w2 = user r
       ∧ trace w2 = trace w1 ++ [EvSetItem AuthService.tokenKey (token r);
                                 EvUser (user r)])
  ∧ (∀ e : HttpErrorResponse, deliver o obs (Error e) w1 = error obs e w1)
  ∧ (∀ r : AuthResponse,
       let s2 := DialogExampleComponent.onSubmit_reply email password (Next r) s1 in
       AuthService.getToken (fst s2) = Some (token r)
       ∧ userSubject (fst s2) = user r
       ∧ emitted (fst s2) = emitted (fst s1) ++ [user r])
  ∧ (∀ e : HttpErrorResponse,
       let s2 := DialogExampleComponent.onSubmit_reply email password (Error e) s1 in
       fst s2 = fst s1).
Proof.
  cbv zeta. split; [| split; [| split; [| split]]].
  - repeat split. apply emitted_log_http.
  - intros r.
    exists (userSubject_next (user r) (AuthService.setToken (token r) w1)).
    split; [done |].
    destruct (store_session r w1) as (Ht & _ & Hu & Htr). by repeat split.
  - done.
  - intros r. split; [apply lookup_insert_eq |]. split; [done |].
    unfold emitted; simpl. rewrite !omap_app; simpl.
    by rewrite !app_nil_r.
  - done.
Qed.

(** The profile fetch of a caller that does nothing on failure: a token
    and a user are there before the failure and are still there after. *)
Lemma getUserProfile_failure_keeps_session :
  let w := Sample.world {[ "auth_token" := "stale" ]} (JValue "{id:7}") in
  let silent := {| next := fun (_ : Json) (w : World) => w;
                   error := fun (_ : HttpErrorResponse) (w : World) => w |} in
  let w' := deliver AuthService.getUserProfile silent
              (Error {| status := 401; message := None |})
              (subscribe AuthService.getUserProfile w) in
  AuthService.getToken w' = Some "stale"
  ∧ userSubject w' = JValue "{id:7}"
  ∧ emitted w' = [].
Proof. by vm_compute. Qed.

(** C2, amended: the forced logout on a failed profile fetch is the error
    handler of [loadUser], the fetch the service starts when it is created
    with a token in storage.  There, the failure removes the token, sets
    the user to [null] and asks for the login view.  [getUserProfile]
    itself does nothing on failure: for any other caller only that
    caller's error callback runs. *)
Theorem loadUser_failure_logs_out (e : HttpErrorResponse) (w : World) :
  let w' := AuthService.loadUser_reply (Error e) w in
  (AuthService.getToken w' = None
   ∧ userSubject w' = JNull
   ∧ trace w' = trace w ++ [EvRemoveItem AuthService.tokenKey; EvUser JNull;
                            EvNavigate ["/login"]])
  ∧ ∀ (obs : Observer World Json) (w1 : World),
      deliver AuthService.getUserProfile obs (Error e) w1 = error obs e w1.
Proof.
  cbv zeta. split; [| done].
  destruct (logout_effect w) as (Ht & _ & Hu & Htr). by repeat split.
Qed.

(** ** The interceptor *)

(** A request to the API while the storage holds an empty token: the
    token entry is there and the URL starts with the base URL, yet the
    request goes on as it came, without an [Authorization] header. *)
Lemma intercept_empty_token_unmodified :
  let environment := {| environment_apiUrl := None |} in
  let w := Sample.world {[ "auth_token" := "" ]} JNull in
  let request := {| method := GET; url := "http://localhost:3000/api/users/me";
                    headers := ∅; body := NoBody |} in
  is_Some (localStorage w !! "auth_token")
  ∧ startsWith (url request) "http://localhost:3000/api" = true
  ∧ AuthInterceptor.intercept environment w request id = request
  ∧ headers (AuthInterceptor.intercept environment w request id) !! "authorization" = None.
Proof. cbv zeta. split; [by eexists | by vm_compute]. Qed.

(** C1, amended: the interceptor hands exactly one request on to the
    next handler.  It is the incoming request with the header
    [Authorization: Bearer <token>] set when the storage holds a non-empty
    token and the URL of the request starts with the API base URL
    ([environment.apiUrl], or the default when that is not set); in every
    other case it is the incoming request itself. *)
Theorem intercept_bearer_iff (environment : Environment) (w : World)
    (request : HttpRequest) :
  let base := or_else (environment_apiUrl environment) "http://localhost:3000/api" in
  let out := AuthInterceptor.intercept environment w request id in
  (∀ (R : Type) (next_handle : HttpRequest → R),
     AuthInterceptor.intercept environment w request next_handle = next_handle out)
  ∧ ((∃ t, localStorage w !! "auth_token" = Some t ∧ t ≠ ""
           ∧ startsWith (url request) base = true
           ∧ out = clone_setAuthorization request ("Bearer " +:+ t)
           ∧ headers out !! "authorization" = Some ["Bearer " +:+ t])
     ∨ ((localStorage w !! "auth_token" = None
         ∨ localStorage w !! "auth_token" = Some ""
         ∨ startsWith (url request) base = false)
        ∧ out = request)).
Proof.
  cbv zeta. split; [done |].
  unfold AuthInterceptor.intercept, AuthService.getToken, getItem.
  change AuthService.tokenKey with "auth_token".
  destruct (localStorage w !! "auth_token") as [[|c t]|] eqn:Htok; simpl.
  - right. split; [by right; left | done].
  - destruct (startsWith (url request) _) eqn:Hurl.
    + left. exists (String c t). repeat split; try done.
      simpl. apply lookup_insert_eq.
    + right. split; [by right; right | done].
  - right. split; [by left | done].
Qed.

(** ** The OAuth callback *)

Lemma strict_eq_true (state : option ParamValue) (savedState : option string) :
  DialogExampleComponent.strict_eq state savedState = true
  ↔ ∃ n, state = Some (PStr n) ∧ savedState = Some n.
Proof.
  unfold DialogExampleComponent.strict_eq. split.
  - destruct state as [[a|l]|], savedState as [b|]; try done.
    intros ->%String.eqb_eq. by exists b.
  - intros (n & -> & ->). apply String.eqb_refl.
Qed.

(** Without a stored nonce no callback is accepted. *)
Lemma ngOnInit_no_nonce (params : gmap string ParamValue)
    (s : DialogExampleComponent.App) :
  getItem "linkedin_state" (fst s) = None →
  DialogExampleComponent.ngOnInit params s = s.
Proof.
  intros Hnone. unfold DialogExampleComponent.ngOnInit.
  destruct (params !! "code") as [code|]; [| done].
  rewrite Hnone.
  replace (DialogExampleComponent.strict_eq (params !! "state") None) with false
    by (by destruct (params !! "state") as [[]|]).
  by rewrite andb_false_r.
Qed.

(** The reply to the exchange leaves the nonce entry as it finds it. *)
Lemma ngOnInit_reply_nonce (code : ParamValue) (n : Notification AuthResponse)
    (s : DialogExampleComponent.App) :
  getItem "linkedin_state" (fst (DialogExampleComponent.ngOnInit_reply code n s))
  = getItem "linkedin_state" (fst s).
Proof.
  destruct n as [r|e]; [| done].
  unfold getItem; simpl. by rewrite lookup_insert_ne.
Qed.

(** C4: when the [state] parameter is absent or is not the stored nonce,
    the callback of [ngOnInit] changes nothing at all: no request is sent
    (so no code exchange), the error message and the [loading] flag of the
    component are as before, and the nonce entry is as before. *)
Theorem ngOnInit_state_mismatch_ignored (params : gmap string ParamValue)
    (s : DialogExampleComponent.App) :
  (params !! "state" = None
   ∨ params !! "state" ≠ PStr <$> getItem "linkedin_state" (fst s)) →
  let s' := DialogExampleComponent.ngOnInit params s in
  s' = s
  ∧ requests (fst s') = requests (fst s)
  ∧ DialogExampleComponent.errorMessage (snd s') = DialogExampleComponent.errorMessage (snd s)
  ∧ getItem "linkedin_state" (fst s') = getItem "linkedin_state" (fst s).
Proof.
  intros Hmis. cbv zeta.
  assert (DialogExampleComponent.ngOnInit params s = s) as ->; [| done].
  unfold DialogExampleComponent.ngOnInit.
  destruct (params !! "code") as [code|]; [| done].
  destruct (DialogExampleComponent.strict_eq _ _) eqn:Heq.
  - apply strict_eq_true in Heq as (n & Hst & Hsv).
    rewrite Hst, Hsv in Hmis. by destruct Hmis.
  - by rewrite andb_false_r.
Qed.

Lemma ngOnInit_state_mismatch_ignored_witness :
  let params : gmap string ParamValue :=
    {[ "code" := PStr "xyz"; "state" := PStr "WRONG" ]} in
  let s := (Sample.world {[ "linkedin_state" := "AbC123" ]} JNull,
            DialogExampleComponent.constructor) in
  let s' := DialogExampleComponent.ngOnInit params s in
  s' = s
  ∧ requests (fst s') = requests (fst s)
  ∧ DialogExampleComponent.errorMessage (snd s') = DialogExampleComponent.errorMessage (snd s)
  ∧ getItem "linkedin_state" (fst s') = getItem "linkedin_state" (fst s).
Proof.
  apply ngOnInit_state_mismatch_ignored.
  right. by vm_compute.
Defined.

(** A callback with an empty [code]: [code] and [state] are both among the
    query parameters and [state] is the stored nonce, but nothing happens
    and the nonce stays in storage. *)
Lemma ngOnInit_empty_code_keeps_nonce :
  let params : gmap string ParamValue :=
    {[ "code" := PStr ""; "state" := PStr "AbC123" ]} in
  let s := (Sample.world {[ "linkedin_state" := "AbC123" ]} JNull,
            DialogExampleComponent.constructor) in
  let s' := DialogExampleComponent.ngOnInit params s in
  is_Some (params !! "code")
  ∧ params !! "state" = PStr <$> getItem "linkedin_state" (fst s)
  ∧ getItem "linkedin_state" (fst s') = Some "AbC123"
  ∧ trace (fst s') = [].
Proof. cbv zeta. split; [by eexists | by vm_compute]. Qed.

(** Nothing but a new redirect to the provider writes a nonce. *)
Lemma run_keeps_nonce_absent (EMAIL_REGEXP : string → bool) (cb : Page.Callback)
    (s : DialogExampleComponent.App) :
  cb ≠ Page.LinkedInButton →
  getItem "linkedin_state" (fst s) = None →
  getItem "linkedin_state" (fst (Page.run EMAIL_REGEXP cb s)) = None.
Proof.
  intros Hcb Hnone.
  destruct cb as [params|code n|f| |email password n| |n|]; [..| by destruct Hcb | |];
    cbn [Page.run fst snd].
  - by rewrite ngOnInit_no_nonce.
  - by rewrite ngOnInit_reply_nonce.
  - done.
  - unfold DialogExampleComponent.onSubmit. by case_match.
  - destruct n as [r|e]; [| done].
    unfold getItem; simpl. by rewrite lookup_insert_ne.
  - destruct n as [u|e]; [done |].
    unfold getItem; simpl. by rewrite lookup_delete_ne.
  - unfold getItem; simpl. by rewrite lookup_delete_ne.
Qed.

Lemma run_all_keeps_nonce_absent (EMAIL_REGEXP : string → bool)
    (cbs : list Page.Callback) :
  ∀ s : DialogExampleComponent.App,
    Page.LinkedInButton ∉ cbs →
    getItem "linkedin_state" (fst s) = None →
    getItem "linkedin_state" (fst (Page.run_all EMAIL_REGEXP cbs s)) = None.
Proof.
  induction cbs as [|cb cbs IH]; intros s Hcbs Hnone; [done |].
  apply not_elem_of_cons in Hcbs as [Hcb Hcbs].
  simpl. apply IH; [done |]. by apply run_keeps_nonce_absent.
Qed.

(** C5, amended: a callback whose [code] and [state] are not empty and
    whose [state] is the stored nonce removes the nonce from storage once,
    and does so before it sends the code exchange.  From then on the nonce
    entry is absent, also after the reply to the exchange, success or
    failure, so a further callback (before or after that reply) is
    ignored whatever it carries; and this stays so through everything
    that runs on the page, until a new redirect stores a new nonce. *)
Theorem nonce_single_use (params : gmap string ParamValue)
    (s : DialogExampleComponent.App) (code : ParamValue) (nonce : string) :
  params !! "code" = Some code → truthy code = true →
  params !! "state" = Some (PStr nonce) → nonce ≠ "" →
  getItem "linkedin_state" (fst s) = Some nonce →
  let s1 := DialogExampleComponent.ngOnInit params s in
  trace (fst s1) =
    trace (fst s) ++ [EvRemoveItem "linkedin_state";
                      EvHttp (source (AuthService.loginWithLinkedIn code))]
  ∧ getItem "linkedin_state" (fst s1) = None
  ∧ (∀ n, getItem "linkedin_state"
            (fst (DialogExampleComponent.ngOnInit_reply code n s1)) = None)
  ∧ (∀ params', DialogExampleComponent.ngOnInit params' s1 = s1)
  ∧ (∀ n params',
       DialogExampleComponent.ngOnInit params'
         (DialogExampleComponent.ngOnInit_reply code n s1)
       = DialogExampleComponent.ngOnInit_reply code n s1)
  ∧ (∀ EMAIL_REGEXP cbs params',
       Page.LinkedInButton ∉ cbs →
       DialogExampleComponent.ngOnInit params' (Page.run_all EMAIL_REGEXP cbs s1)
       = Page.run_all EMAIL_REGEXP cbs s1).
Proof.
  intros Hcode Hc Hstate Hne Hsaved. cbv zeta.
  assert (DialogExampleComponent.ngOnInit params s =
          subscribe (AuthService.loginWithLinkedIn code)
            (removeItem "linkedin_state" (fst s),
             DialogExampleComponent.set_loading true (snd s))) as Hrun.
  { unfold DialogExampleComponent.ngOnInit.
    rewrite Hcode, Hstate, Hsaved, Hc. simpl.
    destruct nonce as [|c nonce]; [done |]. simpl.
    by rewrite Ascii.eqb_refl, String.eqb_refl. }
  rewrite Hrun.
  assert (getItem "linkedin_state"
            (fst (subscribe (AuthService.loginWithLinkedIn code)
                    (removeItem "linkedin_state" (fst s),
                     DialogExampleComponent.set_loading true (snd s)))) = None) as Hgone
    by apply lookup_delete_eq.
  split; [by simpl; rewrite <- app_assoc |]. split; [exact Hgone |].
  split; [| split; [| split]].
  - intros n. by rewrite ngOnInit_reply_nonce.
  - intros params'. by apply ngOnInit_no_nonce.
  - intros n params'. apply ngOnInit_no_nonce. by rewrite ngOnInit_reply_nonce.
  - intros EMAIL_REGEXP cbs params' Hcbs. apply ngOnInit_no_nonce.
    by apply run_all_keeps_nonce_absent.
Qed.

Lemma nonce_single_use_witness :
  let params : gmap string ParamValue :=
    {[ "code" := PStr "xyz"; "state" := PStr "AbC123" ]} in
  let s := (Sample.world {[ "linkedin_state" := "AbC123" ]} JNull,
            DialogExampleComponent.constructor) in
  let s1 := DialogExampleComponent.ngOnInit params s in
  trace (fst s1) =
    trace (fst s) ++ [EvRemoveItem "linkedin_state";
                      EvHttp (source (AuthService.loginWithLinkedIn (PStr "xyz")))]
  ∧ getItem "linkedin_state" (fst s1) = None
  ∧ (∀ n, getItem "linkedin_state"
            (fst (DialogExampleComponent.ngOnInit_reply (PStr "xyz") n s1)) = None)
  ∧ (∀ params', DialogExampleComponent.ngOnInit params' s1 = s1)
  ∧ (∀ n params',
       DialogExampleComponent.ngOnInit params'
         (DialogExampleComponent.ngOnInit_reply (PStr "xyz") n s1)
       = DialogExampleComponent.ngOnInit_reply (PStr "xyz") n s1)
  ∧ (∀ EMAIL_REGEXP cbs params',
       Page.LinkedInButton ∉ cbs →
       DialogExampleComponent.ngOnInit params' (Page.run_all EMAIL_REGEXP cbs s1)
       = Page.run_all EMAIL_REGEXP cbs s1).
Proof.
  apply (nonce_single_use _ _ (PStr "xyz") "AbC123"); by vm_compute.
Defined.

(** ** The login form *)

(** A malformed email or a short password makes the form invalid. *)
Lemma malformed_invalid (EMAIL_REGEXP : string → bool)
    (f : DialogExampleComponent.FormValue) :
  EMAIL_REGEXP (DialogExampleComponent.email f) = false
  ∨ Js.length (DialogExampleComponent.password f) < 6 →
  DialogExampleComponent.invalid EMAIL_REGEXP f = true.
Proof.
  unfold DialogExampleComponent.invalid, Validators.required, Validators.email,
    Validators.minLength.
  intros [Hmail | Hpw].
  - rewrite Hmail. by destruct (truthy (DialogExampleComponent.email f)).
  - apply Z.ltb_lt in Hpw. rewrite Hpw.
    destruct (truthy (DialogExampleComponent.password f)); simpl;
      by rewrite ?orb_true_r.
Qed.

(** C6: when the login form is invalid, and in particular when the email
    does not match the email pattern or the password has fewer than 6
    characters (UTF-16 code units, as [.length] counts them), [onSubmit]
    returns with the state as it was: no request is sent, and the stored
    token, the user and what the observers have seen are unchanged. *)
Theorem onSubmit_invalid_does_nothing (EMAIL_REGEXP : string → bool)
    (s : DialogExampleComponent.App) :
  let f := DialogExampleComponent.loginForm (snd s) in
  (DialogExampleComponent.invalid EMAIL_REGEXP f = true
   ∨ EMAIL_REGEXP (DialogExampleComponent.email f) = false
   ∨ Js.length (DialogExampleComponent.password f) < 6) →
  let s' := DialogExampleComponent.onSubmit EMAIL_REGEXP s in
  s' = s
  ∧ requests (fst s') = requests (fst s)
  ∧ AuthService.getToken (fst s') = AuthService.getToken (fst s)
  ∧ userSubject (fst s') = userSubject (fst s)
  ∧ emitted (fst s') = emitted (fst s).
Proof.
  cbv zeta. intros Hbad.
  assert (DialogExampleComponent.invalid EMAIL_REGEXP
            (DialogExampleComponent.loginForm (snd s)) = true) as Hinv.
  { destruct Hbad as [H | H]; [exact H | by apply malformed_invalid]. }
  unfold DialogExampleComponent.onSubmit. by rewrite Hinv.
Qed.

Lemma onSubmit_invalid_does_nothing_witness :
  let EMAIL_REGEXP := fun v : string => includes v "@" in
  let s := (Sample.world {[ "auth_token" := "old" ]} (JValue "{id:7}"),
            {| DialogExampleComponent.loginForm :=
                 {| DialogExampleComponent.email := "not-an-email";
                    DialogExampleComponent.password := "secret1" |};
               DialogExampleComponent.errorMessage := "";
               DialogExampleComponent.loading := false |}) in
  let s' := DialogExampleComponent.onSubmit EMAIL_REGEXP s in
  s' = s
  ∧ requests (fst s') = requests (fst s)
  ∧ AuthService.getToken (fst s') = AuthService.getToken (fst s)
  ∧ userSubject (fst s') = userSubject (fst s)
  ∧ emitted (fst s') = emitted (fst s).
Proof.
  apply (onSubmit_invalid_does_nothing (fun v : string => includes v "@")).
  right; left. by vm_compute.
Defined.

(** ** The model at work *)

(** A stored token and an API URL: the header is attached. *)
Example intercept_attaches :
  headers
    (AuthInterceptor.intercept {| environment_apiUrl := Some "https://api.zenith.test" |}
       (Sample.world {[ "auth_token" := "abc" ]} JNull)
       {| method := GET; url := "https://api.zenith.test/users/me";
          headers := ∅; body := NoBody |} id) !! "authorization"
  = Some ["Bearer abc"].
Proof. by vm_compute. Qed.

(** The same token and the provider's URL: nothing is attached. *)
Example intercept_third_party :
  headers
    (AuthInterceptor.intercept {| environment_apiUrl := Some "https://api.zenith.test" |}
       (Sample.world {[ "auth_token" := "abc" ]} JNull)
       {| method := GET; url := "https://www.linkedin.com/oauth/v2/authorization";
          headers := ∅; body := NoBody |} id) !! "authorization"
  = None.
Proof. by vm_compute. Qed.

(** A valid form: [onSubmit] sends the login, and an accepted reply ends
    with the token stored, the user pushed and the dashboard asked for. *)
Example submit_then_accept :
  let EMAIL_REGEXP := fun v : string => includes v "@" in
  let s := (Sample.world ∅ JNull,
            {| DialogExampleComponent.loginForm :=
                 {| DialogExampleComponent.email := "ann@zenith.test";
                    DialogExampleComponent.password := "secret1" |};
               DialogExampleComponent.errorMessage := "";
               DialogExampleComponent.loading := false |}) in
  let s1 := DialogExampleComponent.onSubmit EMAIL_REGEXP s in
  let s2 := DialogExampleComponent.onSubmit_reply "ann@zenith.test" "secret1"
              (Next {| token := "t-1"; user := JValue "{id:7}" |}) s1 in
  DialogExampleComponent.loading (snd s1) = true
  ∧ trace (fst s2) =
      [EvHttp {| method := POST; url := "http://localhost:3000/api/auth/login";
                 headers := ∅; body := LoginBody "ann@zenith.test" "secret1" |};
       EvSetItem "auth_token" "t-1";
       EvUser (JValue "{id:7}");
       EvNavigate ["/dashboard"]].
Proof. by vm_compute. Qed.

(** A rejected login shows the message of the backend, or the default. *)
Example submit_then_reject :
  let s := (Sample.world ∅ JNull, DialogExampleComponent.constructor) in
  let reply m := DialogExampleComponent.onSubmit_reply "ann@zenith.test" "secret1"
                   (Error {| status := 401; message := m |}) s in
  DialogExampleComponent.errorMessage (snd (reply (Some "Account locked"))) = "Account locked"
  ∧ DialogExampleComponent.errorMessage (snd (reply None)) = "Invalid email or password"
  ∧ fst (reply None) = fst s.
Proof. by vm_compute. Qed.

(** The service starts with a token in storage: it asks for the profile,
    and a failure of that request logs out. *)
Example start_with_stale_token :
  let w := AuthService.constructor {[ "auth_token" := "stale" ]} Sample.rnd in
  let w' := AuthService.loadUser_reply (Error {| status := 401; message := None |}) w in
  requests w = [{| method := GET; url := "http://localhost:3000/api/users/me";
                   headers := ∅; body := NoBody |}]
  ∧ AuthService.getToken w' = None
  ∧ navigations w' = [["/login"]].
Proof. by vm_compute. Qed.

(** A random source that breaks its contract and returns 1: [charAt] is
    asked for position 62 and appends nothing. *)
Example nonce_needs_unit_interval :
  let w := {| localStorage := ∅; userSubject := JNull;
              entropy := fun _ => {| mant := 2 ^ 53; expo := 53 |};
              random_calls := 0%nat; trace := [] |} in
  fst (AuthService.generateRandomString 16 w) = "".
Proof. by vm_compute. Qed.


(** * Further properties of the code *)

(** ** The service *)

(** X1: the code exchange [loginWithLinkedIn] is a POST of [{ code }] to
    [/auth/linkedin] below the API URL.  Sending it changes neither
    storage nor user.  An accepted reply stores the token and then pushes
    the user, before the subscriber runs, and leaves the nonce entry
    alone; a rejected one runs the subscriber's error callback on the
    unchanged state. *)
Theorem linkedin_exchange_all_or_nothing (code : ParamValue)
    (obs : Observer World AuthResponse) (w w1 : World) :
  let o := AuthService.loginWithLinkedIn code in
  source o = {| method := POST; url := "http://localhost:3000/api/auth/linkedin";
                headers := ∅; body := LinkedInBody code |}
  ∧ (localStorage (subscribe o w) = localStorage w
     ∧ userSubject (subscribe o w) = userSubject w
     ∧ trace (subscribe o w) = trace w ++ [EvHttp (source o)])
  ∧ (∀ r : AuthResponse, ∃ w2 : World,
       deliver o obs (Next r) w1 = next obs r w2
       ∧ AuthService.getToken w2 = Some (token r)
       ∧ userSubject w2 = user r
       ∧ getItem "linkedin_state" w2 = getItem "linkedin_state" w1
       ∧ trace w2 = trace w1 ++ [EvSetItem "auth_token" (token r); EvUser (user r)])
  ∧ (∀ e : HttpErrorResponse, deliver o obs (Error e) w1 = error obs e w1).
Proof.
  cbv zeta. split; [done |]. split; [done |]. split; [| done].
  intros r.
  exists (userSubject_next (user r) (AuthService.setToken (token r) w1)).
  split; [done |].
  destruct (store_session r w1) as (Ht & _ & Hu & Htr).
  split; [exact Ht |]. split; [exact Hu |]. split; [| exact Htr].
  unfold getItem; simpl. by rewrite lookup_insert_ne.
Qed.

(** X2: a successful profile fetch makes the fetched value the current
    user and pushes it to the observers, and that is all: storage, and so
    the token, is not touched, whoever subscribed.  For the fetch of
    [loadUser] nothing else happens either (no navigation). *)
Theorem profile_fetch_sets_user_only (u : Json) (obs : Observer World Json)
    (w1 : World) :
  (∃ w2 : World,
     deliver AuthService.getUserProfile obs (Next u) w1 = next obs u w2
     ∧ userSubject w2 = u
     ∧ localStorage w2 = localStorage w1
     ∧ trace w2 = trace w1 ++ [EvUser u])
  ∧ userSubject (AuthService.loadUser_reply (Next u) w1) = u
  ∧ localStorage (AuthService.loadUser_reply (Next u) w1) = localStorage w1
  ∧ trace (AuthService.loadUser_reply (Next u) w1) = trace w1 ++ [EvUser u].
Proof.
  split; [| done]. by exists (userSubject_next u w1).
Qed.

(** X3: creating the service.  The user starts as [null] and nothing is
    pushed to observers.  Exactly when the storage holds a non-empty
    token, one request is sent, a GET of [/users/me]; with no token, or
    an empty one, nothing at all happens. *)
Theorem constructor_fetches_iff_token (storage : gmap string string)
    (rnd : nat → Draw) :
  let w := AuthService.constructor storage rnd in
  localStorage w = storage
  ∧ userSubject w = JNull
  ∧ emitted w = []
  ∧ ((∃ t, storage !! "auth_token" = Some t ∧ t ≠ ""
           ∧ trace w = [EvHttp {| method := GET;
                                  url := "http://localhost:3000/api/users/me";
                                  headers := ∅; body := NoBody |}])
     ∨ ((storage !! "auth_token" = None ∨ storage !! "auth_token" = Some "")
        ∧ trace w = [])).
Proof.
  cbv zeta. unfold AuthService.constructor, AuthService.loadUser,
    AuthService.getToken, getItem.
  change AuthService.tokenKey with "auth_token". cbn [localStorage].
  destruct (storage !! "auth_token") as [[|c t]|] eqn:Htok; simpl.
  - do 3 (split; [done |]). right. split; [by right | done].
  - do 3 (split; [done |]). left. by exists (String c t).
  - do 3 (split; [done |]). right. split; [by left | done].
Qed.

(** X4: [isAuthenticated] looks at the storage only: it holds exactly
    when a non-empty token is stored, whatever the current user is.  So it
    is false after [logout], and after [setToken t] it is true exactly
    when [t] is not empty; [getToken] reads back what [setToken] wrote. *)
Theorem isAuthenticated_iff_nonempty_token (w : World) :
  (AuthService.isAuthenticated w = true
   ↔ ∃ t, localStorage w !! "auth_token" = Some t ∧ t ≠ "")
  ∧ AuthService.isAuthenticated (AuthService.logout w) = false
  ∧ (∀ t, AuthService.getToken (AuthService.setToken t w) = Some t
          ∧ (AuthService.isAuthenticated (AuthService.setToken t w) = true ↔ t ≠ ""))
  ∧ (∀ u, AuthService.isAuthenticated (userSubject_next u w)
          = AuthService.isAuthenticated w).
Proof.
  split; [| split; [| split]].
  - unfold AuthService.isAuthenticated, AuthService.getToken, getItem.
    change AuthService.tokenKey with "auth_token".
    destruct (localStorage w !! "auth_token") as [[|c t]|]; simpl.
    + split; [done |]. by intros (t & [= <-] & Hne).
    + split; [| done]. intros _. by exists (String c t).
    + split; [done |]. by intros (t & [=] & _).
  - unfold AuthService.isAuthenticated.
    by destruct (logout_effect w) as (-> & _).
  - intros t.
    assert (AuthService.getToken (AuthService.setToken t w) = Some t) as Hget
      by apply lookup_insert_eq.
    split; [exact Hget |].
    unfold AuthService.isAuthenticated. rewrite Hget.
    by destruct t.
  - done.
Qed.

(** ** The interceptor, again *)

Lemma startsWith_append (p suffix : string) : startsWith (p +:+ suffix) p = true.
Proof.
  induction p as [|c p IH]; [by destruct suffix |].
  rewrite append_cons. simpl. by rewrite Ascii.eqb_refl.
Qed.

Lemma intercept_extension (environment : Environment) (w : World) (t suffix : string)
    (request : HttpRequest) :
  localStorage w !! "auth_token" = Some t → t ≠ "" →
  url request
  = or_else (environment_apiUrl environment) "http://localhost:3000/api" +:+ suffix →
  AuthInterceptor.intercept environment w request id
  = clone_setAuthorization request ("Bearer " +:+ t).
Proof.
  intros Htok Hne Hurl.
  unfold AuthInterceptor.intercept, AuthService.getToken, getItem.
  change AuthService.tokenKey with "auth_token".
  rewrite Htok, Hurl, startsWith_append.
  by destruct t.
Qed.

(** X5: the interceptor changes nothing but the [Authorization] header:
    method, URL, body and every other header of the request go on as they
    came.  Running a request through it twice is the same as once. *)
Theorem intercept_only_sets_authorization (environment : Environment) (w : World)
    (request : HttpRequest) :
  let out := AuthInterceptor.intercept environment w request id in
  method out = method request
  ∧ url out = url request
  ∧ body out = body request
  ∧ (∀ h, h ≠ "authorization" → headers out !! h = headers request !! h)
  ∧ AuthInterceptor.intercept environment w out id = out.
Proof.
  cbv zeta. unfold AuthInterceptor.intercept. cbv zeta.
  destruct (truthy (AuthService.getToken w) && startsWith (url request) _)
    eqn:Hcond.
  - cbn [id url method body headers clone_setAuthorization]. rewrite Hcond.
    do 3 (split; [done |]). split.
    + intros h Hh. by rewrite lookup_insert_ne.
    + unfold clone_setAuthorization; simpl. f_equal. apply insert_insert_eq.
  - cbn [id]. by rewrite Hcond.
Qed.

(** X6: the test for the API is a test on the text of the URL.  With a
    non-empty token stored, every request whose URL is the base URL
    followed by anything at all gets the token, also when what follows
    continues the host name. *)
Theorem intercept_textual_prefix (environment : Environment) (w : World)
    (t suffix : string) (request : HttpRequest) :
  localStorage w !! "auth_token" = Some t → t ≠ "" →
  url request
  = or_else (environment_apiUrl environment) "http://localhost:3000/api" +:+ suffix →
  headers (AuthInterceptor.intercept environment w request id) !! "authorization"
  = Some ["Bearer " +:+ t].
Proof.
  intros Htok Hne Hurl. rewrite (intercept_extension _ _ t suffix) by done.
  apply lookup_insert_eq.
Qed.

Lemma intercept_textual_prefix_witness :
  headers
    (AuthInterceptor.intercept {| environment_apiUrl := Some "https://api.zenith.test" |}
       (Sample.world {[ "auth_token" := "abc" ]} JNull)
       {| method := GET; url := "https://api.zenith.test.evil.example/steal";
          headers := ∅; body := NoBody |} id) !! "authorization"
  = Some ["Bearer abc"].
Proof.
  apply (intercept_textual_prefix _ _ "abc" ".evil.example/steal"); by vm_compute.
Defined.

(** X7: when [environment.apiUrl] is not set (or is empty), the base URL
    of the interceptor is the API URL of the service, so every request the
    service builds (login, registration, code exchange, profile) gets the
    header whenever a non-empty token is stored. *)
Theorem service_requests_carry_token (environment : Environment) (w : World)
    (t : string) (email password : string) (userData : Json) (code : ParamValue) :
  (environment_apiUrl environment = None ∨ environment_apiUrl environment = Some "") →
  localStorage w !! "auth_token" = Some t → t ≠ "" →
  Forall (fun request =>
            AuthInterceptor.intercept environment w request id
            = clone_setAuthorization request ("Bearer " +:+ t))
    [source (AuthService.login email password);
     source (AuthService.register userData);
     source (AuthService.loginWithLinkedIn code);
     source (AuthService.getUserProfile)].
Proof.
  intros Henv Htok Hne.
  assert (or_else (environment_apiUrl environment) "http://localhost:3000/api"
          = AuthService.apiUrl) as Hbase by (by destruct Henv as [-> | ->]).
  rewrite !Forall_cons, Forall_nil. split; [| split; [| split; [| split; [| done]]]].
  - apply (intercept_extension _ _ t "/auth/login"); [done.. |]. by rewrite Hbase.
  - apply (intercept_extension _ _ t "/auth/register"); [done.. |]. by rewrite Hbase.
  - apply (intercept_extension _ _ t "/auth/linkedin"); [done.. |]. by rewrite Hbase.
  - apply (intercept_extension _ _ t "/users/me"); [done.. |]. by rewrite Hbase.
Qed.

Lemma service_requests_carry_token_witness :
  Forall (fun request =>
            AuthInterceptor.intercept {| environment_apiUrl := None |}
              (Sample.world {[ "auth_token" := "abc" ]} JNull) request id
            = clone_setAuthorization request ("Bearer " +:+ "abc"))
    [source (AuthService.login "ann@zenith.test" "secret1");
     source (AuthService.register (JValue "{name:Ann}"));
     source (AuthService.loginWithLinkedIn (PStr "xyz"));
     source (AuthService.getUserProfile)].
Proof.
  apply service_requests_carry_token; [by left | by vm_compute | done].
Defined.

(** ** The login form, again *)

(** X8: the login form is invalid exactly when the email is empty or
    fails the email pattern, or the password has fewer than 6 characters
    (UTF-16 code units, as [.length] counts them; the empty password
    included). *)
Theorem loginForm_invalid_iff (EMAIL_REGEXP : string → bool)
    (f : DialogExampleComponent.FormValue) :
  DialogExampleComponent.invalid EMAIL_REGEXP f = true
  ↔ DialogExampleComponent.email f = ""
    ∨ EMAIL_REGEXP (DialogExampleComponent.email f) = false
    ∨ Js.length (DialogExampleComponent.password f) < 6.
Proof.
  unfold DialogExampleComponent.invalid, Validators.required, Validators.email,
    Validators.minLength.
  destruct f as [e p].
  cbn [DialogExampleComponent.email DialogExampleComponent.password].
  destruct e as [|c e]; [split; [by left | done] |].
  change (truthy (String c e)) with true. cbn [negb andb orb].
  destruct (EMAIL_REGEXP (String c e)); cbn [negb orb];
    [| split; [by right; left | done]].
  destruct p as [|d p]; [split; [right; right; cbn; lia | done] |].
  change (truthy (String d p)) with true. cbn [negb andb orb].
  destruct (Z.ltb_spec (Js.length (String d p)) 6) as [Hlt | Hge].
  - split; [by right; right | done].
  - split; [done |]. intros [H | [H | H]]; [done.. | lia].
Qed.

(** X9: on a valid form [onSubmit] sends exactly one request, the POST of
    the form's email and password to [/auth/login], and sets [loading];
    storage, user, error message and form are as before (an earlier error
    message stays on display). *)
Theorem onSubmit_valid_sends_login (EMAIL_REGEXP : string → bool)
    (s : DialogExampleComponent.App) :
  DialogExampleComponent.invalid EMAIL_REGEXP
    (DialogExampleComponent.loginForm (snd s)) = false →
  let f := DialogExampleComponent.loginForm (snd s) in
  let s' := DialogExampleComponent.onSubmit EMAIL_REGEXP s in
  trace (fst s') =
    trace (fst s) ++
    [EvHttp {| method := POST; url := "http://localhost:3000/api/auth/login";
               headers := ∅;
               body := LoginBody (DialogExampleComponent.email f)
                                 (DialogExampleComponent.password f) |}]
  ∧ localStorage (fst s') = localStorage (fst s)
  ∧ userSubject (fst s') = userSubject (fst s)
  ∧ DialogExampleComponent.loading (snd s') = true
  ∧ DialogExampleComponent.errorMessage (snd s') = DialogExampleComponent.errorMessage (snd s)
  ∧ DialogExampleComponent.loginForm (snd s') = f.
Proof.
  intros Hvalid. cbv zeta. unfold DialogExampleComponent.onSubmit.
  by rewrite Hvalid.
Qed.

Lemma onSubmit_valid_sends_login_witness :
  let EMAIL_REGEXP := fun v : string => includes v "@" in
  let s := (Sample.world ∅ JNull,
            {| DialogExampleComponent.loginForm :=
                 {| DialogExampleComponent.email := "ann@zenith.test";
                    DialogExampleComponent.password := "secret1" |};
               DialogExampleComponent.errorMessage := "Invalid email or password";
               DialogExampleComponent.loading := false |}) in
  let f := DialogExampleComponent.loginForm (snd s) in
  let s' := DialogExampleComponent.onSubmit EMAIL_REGEXP s in
  trace (fst s') =
    trace (fst s) ++
    [EvHttp {| method := POST; url := "http://localhost:3000/api/auth/login";
               headers := ∅;
               body := LoginBody (DialogExampleComponent.email f)
                                 (DialogExampleComponent.password f) |}]
  ∧ localStorage (fst s') = localStorage (fst s)
  ∧ userSubject (fst s') = userSubject (fst s)
  ∧ DialogExampleComponent.loading (snd s') = true
  ∧ DialogExampleComponent.errorMessage (snd s') = DialogExampleComponent.errorMessage (snd s)
  ∧ DialogExampleComponent.loginForm (snd s') = f.
Proof.
  apply (onSubmit_valid_sends_login (fun v : string => includes v "@")).
  by vm_compute.
Defined.

(** X10: a rejected login changes the component only: [loading] is reset,
    and the message shown is the message of the backend when there is a
    non-empty one, and ["Invalid email or password"] when the reply
    carries none or an empty one.  The form keeps its values. *)
Theorem login_rejected_message (email password : string) (e : HttpErrorResponse)
    (s : DialogExampleComponent.App) :
  let s' := DialogExampleComponent.onSubmit_reply email password (Error e) s in
  fst s' = fst s
  ∧ DialogExampleComponent.loading (snd s') = false
  ∧ DialogExampleComponent.loginForm (snd s') = DialogExampleComponent.loginForm (snd s)
  ∧ ((∃ m, message e = Some m ∧ m ≠ ""
           ∧ DialogExampleComponent.errorMessage (snd s') = m)
     ∨ ((message e = None ∨ message e = Some "")
        ∧ DialogExampleComponent.errorMessage (snd s') = "Invalid email or password")).
Proof.
  cbv zeta. do 3 (split; [done |]). simpl.
  destruct (message e) as [[|c m]|]; simpl.
  - right. split; [by right | done].
  - left. by exists (String c m).
  - right. split; [by left | done].
Qed.

(** X11: an accepted login and an accepted code exchange end the same
    way: the token is stored, the user pushed, and then the router is
    asked for [/dashboard].  The component is not touched: [loading] is
    not reset and an error message on display is not cleared. *)
Theorem accepted_reply_goes_to_dashboard (email password : string)
    (code : ParamValue) (r : AuthResponse) (s : DialogExampleComponent.App) :
  let done_trace :=
    trace (fst s) ++ [EvSetItem "auth_token" (token r); EvUser (user r);
                      EvNavigate ["/dashboard"]] in
  let s1 := DialogExampleComponent.onSubmit_reply email password (Next r) s in
  let s2 := DialogExampleComponent.ngOnInit_reply code (Next r) s in
  s1 = s2
  ∧ trace (fst s1) = done_trace
  ∧ localStorage (fst s1) = <["auth_token" := token r]> (localStorage (fst s))
  ∧ userSubject (fst s1) = user r
  ∧ snd s1 = snd s.
Proof.
  cbv zeta. split; [done |]. split; [| done].
  simpl. by rewrite <- !app_assoc.
Qed.

(** X12: a failed code exchange shows the fixed message, whatever the
    backend said, and resets [loading].  Storage, user and trace are as
    they were: in particular the nonce, removed when the exchange was
    sent, is not put back. *)
Theorem exchange_failure_fixed_message (code : ParamValue) (e : HttpErrorResponse)
    (s : DialogExampleComponent.App) :
  let s' := DialogExampleComponent.ngOnInit_reply code (Error e) s in
  fst s' = fst s
  ∧ DialogExampleComponent.errorMessage (snd s') = "LinkedIn login failed. Please try again."
  ∧ DialogExampleComponent.loading (snd s') = false
  ∧ DialogExampleComponent.loginForm (snd s') = DialogExampleComponent.loginForm (snd s).
Proof. done. Qed.

(** ** The nonce and the redirect, again *)

Lemma generateRandomString_loop_le (i : nat) :
  ∀ (result : string) (w : World),
    (String.length (fst (AuthService.generateRandomString_loop i result w))
     ≤ String.length result + i)%nat.
Proof.
  induction i as [|i IH]; intros result w; [simpl; lia |].
  rewrite generateRandomString_loop_S.
  etrans; [apply IH |]. rewrite length_append.
  destruct (charAt_chars (floor_mul (entropy w (random_calls w)) 62)) as (_ & Hle & _).
  lia.
Qed.

(** X13: with a random source that keeps to the unit interval,
    [generateRandomString n] returns exactly [n] characters of [chars]
    for every [n], and uses up exactly [n] results of the source, changing
    nothing else. *)
Theorem generateRandomString_exact (n : nat) (w : World) :
  (∀ k, unit_interval (entropy w k)) →
  String.length (fst (AuthService.generateRandomString n w)) = n
  ∧ every (includes AuthService.chars) (fst (AuthService.generateRandomString n w)) = true
  ∧ snd (AuthService.generateRandomString n w) = consume n w.
Proof.
  intros Hrnd.
  destruct (generateRandomString_spec n w) as (nonce & -> & Hall & Hlen).
  split; [by apply Hlen | done].
Qed.

Lemma generateRandomString_exact_witness :
  String.length (fst (AuthService.generateRandomString 5 (Sample.world ∅ JNull))) = 5%nat
  ∧ every (includes AuthService.chars)
      (fst (AuthService.generateRandomString 5 (Sample.world ∅ JNull))) = true
  ∧ snd (AuthService.generateRandomString 5 (Sample.world ∅ JNull))
    = consume 5 (Sample.world ∅ JNull).
Proof.
  apply generateRandomString_exact.
  intros k. unfold unit_interval; simpl. lia.
Defined.

(** X14: whatever the random source returns, also outside the unit
    interval, [generateRandomString n] returns at most [n] characters, all
    of them from [chars]; it uses up exactly [n] results of the source and
    touches neither storage nor user nor trace.  For [n = 0] the result is
    the empty string. *)
Theorem generateRandomString_robust (n : nat) (w : World) :
  let result := fst (AuthService.generateRandomString n w) in
  let w' := snd (AuthService.generateRandomString n w) in
  (String.length result ≤ n)%nat
  ∧ every (includes AuthService.chars) result = true
  ∧ every is_alnum result = true
  ∧ random_calls w' = (random_calls w + n)%nat
  ∧ localStorage w' = localStorage w
  ∧ userSubject w' = userSubject w
  ∧ trace w' = trace w
  ∧ fst (AuthService.generateRandomString 0 w) = "".
Proof.
  cbv zeta. split.
  { apply (generateRandomString_loop_le n "" w). }
  destruct (generateRandomString_spec n w) as (nonce & -> & Hall & _).
  split; [exact Hall |]. split; [| done].
  eapply every_weaken; [apply chars_alnum | exact Hall].
Qed.

(** What one call of [getLinkedInAuthUrl] does, in terms of its nonce. *)
Lemma getLinkedInAuthUrl_run (w : World) :
  ∃ nonce : string,
    AuthService.generateRandomString 16 w = (nonce, consume 16 w)
    ∧ every (includes AuthService.chars) nonce = true
    ∧ ((∀ k, unit_interval (entropy w k)) → String.length nonce = 16%nat)
    ∧ snd (AuthService.getLinkedInAuthUrl w)
      = setItem "linkedin_state" nonce (consume 16 w)
    ∧ Url.searchParams (fst (AuthService.getLinkedInAuthUrl w)) =
        ("https://www.linkedin.com/oauth/v2/authorization",
         [("response_type", "code");
          ("client_id", "YOUR_LINKEDIN_CLIENT_ID");
          ("redirect_uri", "http%3A%2F%2Flocalhost%3A4200%2Flogin");
          ("state", nonce);
          ("scope", "r_liteprofile%20r_emailaddress")]).
Proof.
  destruct (generateRandomString_spec 16 w) as (nonce & Hgen & Hall & Hlen).
  exists nonce. do 3 (split; [done |]).
  unfold AuthService.getLinkedInAuthUrl. rewrite Hgen.
  cbv zeta. cbn [fst snd]. split; [done |].
  assert (every (fun c => negb (Ascii.eqb c "&")) nonce = true) as Hamp.
  { eapply every_weaken; [| exact Hall].
    intros c Hc. by apply alnum_not_amp, chars_alnum. }
  change (Url.searchParams _) with
    (Url.searchParams
       ("https://www.linkedin.com/oauth/v2/authorization" +:+ String "?"
          ("response_type=code&client_id=YOUR_LINKEDIN_CLIENT_ID&redirect_uri=http%3A%2F%2Flocalhost%3A4200%2Flogin"
             +:+ String "&" (("state" +:+ String "=" nonce)
             +:+ String "&" "scope=r_liteprofile%20r_emailaddress")))).
  unfold Url.searchParams.
  rewrite cut_append by (by vm_compute).
  rewrite !split_on_append.
  rewrite (split_on_none "&" ("state" +:+ String "=" nonce))
    by (rewrite every_append; cbn [every]; by rewrite Hamp).
  assert (Url.split_on "&"
            "response_type=code&client_id=YOUR_LINKEDIN_CLIENT_ID&redirect_uri=http%3A%2F%2Flocalhost%3A4200%2Flogin"
          = ["response_type=code"; "client_id=YOUR_LINKEDIN_CLIENT_ID";
             "redirect_uri=http%3A%2F%2Flocalhost%3A4200%2Flogin"]) as ->
    by (by vm_compute).
  assert (Url.split_on "&" "scope=r_liteprofile%20r_emailaddress"
          = ["scope=r_liteprofile%20r_emailaddress"]) as -> by (by vm_compute).
  cbn [map app].
  rewrite (cut_append "=" "state" nonce) by (by vm_compute).
  by vm_compute.
Qed.

(** When the callback is accepted. *)
Lemma ngOnInit_accepts (params : gmap string ParamValue)
    (s : DialogExampleComponent.App) (code : ParamValue) (nonce : string) :
  params !! "code" = Some code → truthy code = true →
  params !! "state" = Some (PStr nonce) → nonce ≠ "" →
  getItem "linkedin_state" (fst s) = Some nonce →
  DialogExampleComponent.ngOnInit params s =
  subscribe (AuthService.loginWithLinkedIn code)
    (removeItem "linkedin_state" (fst s),
     DialogExampleComponent.set_loading true (snd s)).
Proof.
  intros Hcode Hc Hstate Hne Hsaved. unfold DialogExampleComponent.ngOnInit.
  rewrite Hcode, Hstate, Hsaved, Hc. simpl.
  destruct nonce as [|c nonce]; [done |]. simpl.
  by rewrite Ascii.eqb_refl, String.eqb_refl.
Qed.

(** The characters drawn depend on the random source only. *)
Lemma generateRandomString_loop_indep (i : nat) :
  ∀ (result : string) (w w' : World),
    entropy w = entropy w' → random_calls w = random_calls w' →
    fst (AuthService.generateRandomString_loop i result w)
    = fst (AuthService.generateRandomString_loop i result w').
Proof.
  induction i as [|i IH]; intros result w w' He Hr; [done |].
  rewrite !generateRandomString_loop_S, He, Hr.
  apply IH; unfold consume; cbn [entropy random_calls]; congruence.
Qed.

(** X15: the round trip of the redirect.  With a random source in the
    unit interval, the value of the [state] parameter of the URL that
    [getLinkedInAuthUrl] returns is accepted when it comes back: a
    callback with that [state] and any non-empty [code] removes the nonce
    and sends the exchange of that [code], and nothing else. *)
Theorem oauth_round_trip (w : World) (c : DialogExampleComponent.Component)
    (code : ParamValue) (state : string) :
  (∀ k, unit_interval (entropy w k)) →
  truthy code = true →
  In ("state", state) (snd (Url.searchParams (fst (AuthService.getLinkedInAuthUrl w)))) →
  let w1 := snd (AuthService.getLinkedInAuthUrl w) in
  let s2 := DialogExampleComponent.ngOnInit
              {[ "code" := code; "state" := PStr state ]} (w1, c) in
  trace (fst s2) =
    trace w1 ++ [EvRemoveItem "linkedin_state";
                 EvHttp (source (AuthService.loginWithLinkedIn code))]
  ∧ getItem "linkedin_state" (fst s2) = None
  ∧ DialogExampleComponent.loading (snd s2) = true.
Proof.
  intros Hrnd Hcode Hin. cbv zeta.
  destruct (getLinkedInAuthUrl_run w) as (nonce & _ & _ & Hlen & Hw1 & Hparams).
  rewrite Hparams in Hin. cbn [snd] in Hin. rewrite Hw1.
  generalize dependent (consume 16 w). intros w0.
  assert (state = nonce) as ->.
  { destruct Hin as [Hin | [Hin | [Hin | [Hin | [Hin | []]]]]]; congruence. }
  assert (nonce ≠ "") as Hne.
  { intros ->. specialize (Hlen Hrnd). by cbn in Hlen. }
  rewrite (ngOnInit_accepts _ (setItem "linkedin_state" nonce w0, c) code nonce).
  - split; [| split; [| done]].
    + cbn. by rewrite <- !app_assoc.
    + apply lookup_delete_eq.
  - apply lookup_insert_eq.
  - exact Hcode.
  - rewrite lookup_insert_ne by done. apply lookup_insert_eq.
  - exact Hne.
  - apply lookup_insert_eq.
Qed.

Lemma oauth_round_trip_witness :
  let w := Sample.world ∅ JNull in
  let c := DialogExampleComponent.constructor in
  let w1 := snd (AuthService.getLinkedInAuthUrl w) in
  let s2 := DialogExampleComponent.ngOnInit
              {[ "code" := PStr "xyz"; "state" := PStr "ADHLPTWaeimqtx15" ]} (w1, c) in
  trace (fst s2) =
    trace w1 ++ [EvRemoveItem "linkedin_state";
                 EvHttp (source (AuthService.loginWithLinkedIn (PStr "xyz")))]
  ∧ getItem "linkedin_state" (fst s2) = None
  ∧ DialogExampleComponent.loading (snd s2) = true.
Proof.
  apply (oauth_round_trip (Sample.world ∅ JNull)).
  - intros k. unfold unit_interval; simpl. lia.
  - reflexivity.
  - vm_compute. tauto.
Defined.

(** X16: a second redirect replaces the nonce of the first.  After two
    calls of [getLinkedInAuthUrl] the storage holds the nonce of the
    second, drawn from the next sixteen results of the random source; a
    callback that brings back the first nonce, when the two differ, is
    ignored. *)
Theorem second_redirect_replaces_nonce (w : World)
    (c : DialogExampleComponent.Component) (code : ParamValue) :
  let w1 := snd (AuthService.getLinkedInAuthUrl w) in
  let w2 := snd (AuthService.getLinkedInAuthUrl w1) in
  let nonce1 := fst (AuthService.generateRandomString 16 w) in
  let nonce2 := fst (AuthService.generateRandomString 16 (consume 16 w)) in
  nonce1 ≠ nonce2 →
  getItem "linkedin_state" w1 = Some nonce1
  ∧ getItem "linkedin_state" w2 = Some nonce2
  ∧ random_calls w2 = (random_calls w + 32)%nat
  ∧ DialogExampleComponent.ngOnInit
      {[ "code" := code; "state" := PStr nonce1 ]} (w2, c) = (w2, c).
Proof.
  cbv zeta.
  destruct (getLinkedInAuthUrl_run w) as (n1 & Hg1 & _ & _ & Hw1 & _).
  rewrite Hw1, Hg1. cbn [fst].
  destruct (getLinkedInAuthUrl_run (setItem "linkedin_state" n1 (consume 16 w)))
    as (n2 & Hg2 & _ & _ & Hw2 & _).
  rewrite Hw2.
  assert (fst (AuthService.generateRandomString 16 (consume 16 w)) = n2) as ->.
  { transitivity
      (fst (AuthService.generateRandomString 16
              (setItem "linkedin_state" n1 (consume 16 w)))); [| by rewrite Hg2].
    by apply generateRandomString_loop_indep. }
  clear Hg1 Hw1 Hg2 Hw2. intros Hne.
  split; [apply lookup_insert_eq |]. split; [apply lookup_insert_eq |].
  split; [cbn; lia |].
  assert (({[ "code" := code; "state" := PStr n1 ]} : gmap string ParamValue) !! "state"
          ≠ PStr <$> getItem "linkedin_state"
                       (setItem "linkedin_state" n2
                          (consume 16 (setItem "linkedin_state" n1 (consume 16 w)))))
    as Hmis.
  { replace (getItem "linkedin_state" (setItem "linkedin_state" n2 _)) with (Some n2)
      by (symmetry; apply lookup_insert_eq).
    rewrite lookup_insert_ne by done. rewrite lookup_singleton_eq.
    cbn. congruence. }
  unfold DialogExampleComponent.ngOnInit. cbn [fst snd].
  destruct (_ !! "code") as [code0|]; [| done].
  destruct (DialogExampleComponent.strict_eq _ _) eqn:Heq.
  - apply strict_eq_true in Heq as (n & Hst & Hsv).
    rewrite Hst, Hsv in Hmis. by destruct Hmis.
  - by rewrite andb_false_r.
Qed.

Lemma second_redirect_replaces_nonce_witness :
  let w := Sample.world ∅ JNull in
  let w1 := snd (AuthService.getLinkedInAuthUrl w) in
  let w2 := snd (AuthService.getLinkedInAuthUrl w1) in
  let nonce1 := fst (AuthService.generateRandomString 16 w) in
  let nonce2 := fst (AuthService.generateRandomString 16 (consume 16 w)) in
  getItem "linkedin_state" w1 = Some nonce1
  ∧ getItem "linkedin_state" w2 = Some nonce2
  ∧ random_calls w2 = (random_calls w + 32)%nat
  ∧ DialogExampleComponent.ngOnInit
      {[ "code" := PStr "xyz"; "state" := PStr nonce1 ]}
      (w2, DialogExampleComponent.constructor)
    = (w2, DialogExampleComponent.constructor).
Proof.
  apply (second_redirect_replaces_nonce (Sample.world ∅ JNull)).
  by vm_compute.
Defined.

(** ** The page as a whole *)

Lemma component_loginWithLinkedIn (s : DialogExampleComponent.App) :
  ∃ nonce href : string,
    DialogExampleComponent.loginWithLinkedIn s
    = (log (EvLocation href) (setItem "linkedin_state" nonce (consume 16 (fst s))),
       snd s).
Proof.
  destruct (getLinkedInAuthUrl_run (fst s)) as (nonce & _ & _ & _ & Hw & _).
  unfold DialogExampleComponent.loginWithLinkedIn.
  destruct (AuthService.getLinkedInAuthUrl (fst s)) as [href w'].
  cbn [snd] in Hw. subst w'. by exists nonce, href.
Qed.

Lemma run_other_keys (EMAIL_REGEXP : string → bool) (cb : Page.Callback)
    (s : DialogExampleComponent.App) (k : string) :
  k ≠ "auth_token" → k ≠ "linkedin_state" →
  localStorage (fst (Page.run EMAIL_REGEXP cb s)) !! k = localStorage (fst s) !! k.
Proof.
  intros Htok Hnonce.
  destruct cb as [params|code n|f| |email password n| |n|]; cbn [Page.run fst snd].
  - unfold DialogExampleComponent.ngOnInit.
    destruct (params !! "code") as [code|]; [| done].
    case_match; [| done]. cbn. by rewrite lookup_delete_ne.
  - destruct n as [r|e]; [| done]. cbn. by rewrite lookup_insert_ne.
  - done.
  - unfold DialogExampleComponent.onSubmit. by case_match.
  - destruct n as [r|e]; [| done]. cbn. by rewrite lookup_insert_ne.
  - destruct (component_loginWithLinkedIn s) as (nonce & href & ->).
    cbn. by rewrite lookup_insert_ne.
  - destruct n as [u|e]; [done |]. cbn. by rewrite lookup_delete_ne.
  - cbn. by rewrite lookup_delete_ne.
Qed.

(** X17: the program writes two storage keys and no other.  Whatever
    runs on the page, in any order (callbacks of the component, replies of
    the backend, a new redirect, a logout), an entry under any key other
    than [auth_token] and [linkedin_state] is as it was. *)
Theorem callbacks_touch_two_keys (EMAIL_REGEXP : string → bool)
    (cbs : list Page.Callback) (s : DialogExampleComponent.App) (k : string) :
  k ≠ "auth_token" → k ≠ "linkedin_state" →
  localStorage (fst (Page.run_all EMAIL_REGEXP cbs s)) !! k = localStorage (fst s) !! k.
Proof.
  intros Htok Hnonce. revert s.
  induction cbs as [|cb cbs IH]; intros s; [done |].
  cbn [Page.run_all foldl]. etrans; [apply IH |]. by apply run_other_keys.
Qed.

Lemma callbacks_touch_two_keys_witness :
  let EMAIL_REGEXP := fun v : string => includes v "@" in
  let s := (Sample.world {[ "theme" := "dark"; "auth_token" := "old" ]} JNull,
            DialogExampleComponent.constructor) in
  let cbs := [Page.LinkedInButton;
              Page.SubmitReply "a@b" "secret1" (Next {| token := "t"; user := JNull |});
              Page.Logout] in
  localStorage (fst (Page.run_all EMAIL_REGEXP cbs s)) !! "theme"
  = localStorage (fst s) !! "theme".
Proof.
  by apply (callbacks_touch_two_keys (fun v : string => includes v "@")).
Defined.

(** The lists read off a trace, after a callback whose events are known. *)
Ltac trace_lists :=
  unfold requests, emitted, navigations; cbn;
  rewrite ?omap_app; cbn; rewrite ?app_nil_r.

Lemma run_requests (EMAIL_REGEXP : string → bool) (cb : Page.Callback)
    (s : DialogExampleComponent.App) :
  ∃ rs : list HttpRequest,
    requests (fst (Page.run EMAIL_REGEXP cb s)) = requests (fst s) ++ rs
    ∧ Forall (fun r => startsWith (url r) AuthService.apiUrl = true) rs.
Proof.
  destruct cb as [params|code n|f| |email password n| |n|]; cbn [Page.run fst snd].
  - unfold DialogExampleComponent.ngOnInit.
    destruct (params !! "code") as [code|]; [| exists []; by rewrite app_nil_r].
    case_match; [| exists []; by rewrite app_nil_r].
    exists [source (AuthService.loginWithLinkedIn code)]. split.
    + by trace_lists.
    + by repeat constructor.
  - exists []. rewrite app_nil_r. split; [| done].
    destruct n as [r|e]; [| done].
    by trace_lists.
  - exists []. by rewrite app_nil_r.
  - unfold DialogExampleComponent.onSubmit.
    case_match; [exists []; by rewrite app_nil_r |].
    eexists [_]. split.
    + by trace_lists.
    + by repeat constructor.
  - exists []. rewrite app_nil_r. split; [| done].
    destruct n as [r|e]; [| done].
    by trace_lists.
  - destruct (component_loginWithLinkedIn s) as (nonce & href & ->).
    exists []. rewrite app_nil_r. split; [| done].
    by trace_lists.
  - exists []. rewrite app_nil_r. split; [| done].
    by destruct n as [u|e]; trace_lists.
  - exists []. rewrite app_nil_r. split; [| done].
    by trace_lists.
Qed.

(** X18: the program sends HTTP requests to the API only.  If every
    request sent so far went to a URL below the API URL of the service,
    this is still so after anything that runs on the page; the redirect
    to the provider is a change of location, not a request, and no
    request ever goes to the provider. *)
Theorem requests_stay_on_api (EMAIL_REGEXP : string → bool)
    (cbs : list Page.Callback) (s : DialogExampleComponent.App) :
  Forall (fun r => startsWith (url r) AuthService.apiUrl = true) (requests (fst s)) →
  Forall (fun r => startsWith (url r) AuthService.apiUrl = true)
    (requests (fst (Page.run_all EMAIL_REGEXP cbs s))).
Proof.
  revert s. induction cbs as [|cb cbs IH]; intros s Hs; [done |].
  cbn [Page.run_all foldl]. apply IH.
  destruct (run_requests EMAIL_REGEXP cb s) as (rs & -> & Hrs).
  by apply Forall_app.
Qed.

Lemma requests_stay_on_api_witness :
  let EMAIL_REGEXP := fun v : string => includes v "@" in
  let s := (AuthService.constructor {[ "auth_token" := "old" ]} Sample.rnd,
            {| DialogExampleComponent.loginForm :=
                 {| DialogExampleComponent.email := "ann@zenith.test";
                    DialogExampleComponent.password := "secret1" |};
               DialogExampleComponent.errorMessage := "";
               DialogExampleComponent.loading := false |}) in
  let cbs := [Page.Submit; Page.LinkedInButton;
              Page.QueryParams {[ "code" := PStr "xyz"; "state" := PStr "ADHLPTWaeimqtx15" ]}] in
  Forall (fun r => startsWith (url r) AuthService.apiUrl = true)
    (requests (fst (Page.run_all EMAIL_REGEXP cbs s))).
Proof.
  apply (requests_stay_on_api (fun v : string => includes v "@")).
  vm_compute. by repeat constructor.
Defined.

(** X19: nothing the user does on the page changes the session by
    itself.  A callback of the query parameters, an edit of the form, a
    submit and the LinkedIn button leave the stored token and the current
    user as they are, push nothing to the observers and ask the router for
    nothing; only a reply of the backend and [logout] do. *)
Theorem user_actions_keep_session (EMAIL_REGEXP : string → bool)
    (s : DialogExampleComponent.App) :
  let kept cb :=
    AuthService.getToken (fst (Page.run EMAIL_REGEXP cb s)) = AuthService.getToken (fst s)
    ∧ userSubject (fst (Page.run EMAIL_REGEXP cb s)) = userSubject (fst s)
    ∧ emitted (fst (Page.run EMAIL_REGEXP cb s)) = emitted (fst s)
    ∧ navigations (fst (Page.run EMAIL_REGEXP cb s)) = navigations (fst s) in
  (∀ params, kept (Page.QueryParams params))
  ∧ (∀ f, kept (Page.Edit f))
  ∧ kept Page.Submit
  ∧ kept Page.LinkedInButton.
Proof.
  cbv zeta. split; [| split; [| split]].
  - intros params. cbn [Page.run].
    unfold DialogExampleComponent.ngOnInit.
    destruct (params !! "code") as [code|]; [| done].
    case_match; [| done].
    split; [| split; [done |]].
    + unfold AuthService.getToken, getItem. cbn. by rewrite lookup_delete_ne.
    + by trace_lists.
  - done.
  - cbn [Page.run]. unfold DialogExampleComponent.onSubmit.
    case_match; [done |].
    split; [done |]. split; [done |].
    by trace_lists.
  - cbn [Page.run].
    destruct (component_loginWithLinkedIn s) as (nonce & href & ->).
    split; [| split; [done |]].
    + unfold AuthService.getToken, getItem. cbn. by rewrite lookup_insert_ne.
    + by trace_lists.
Qed.

(** ** The route table *)

Lemma recognize_final_home :
  Routes.recognize_final Routes.routes (Routes.segments_of "/home")
  = Some (["home"], Routes.HomeComponent).
Proof. by vm_compute. Qed.

Lemma navigate_cases (segments : list string) :
  Routes.navigate segments =
  if bool_decide (segments = ["home"]) then Some (["home"], Routes.HomeComponent)
  else if bool_decide (segments = ["hcp"]) then Some (["hcp"], Routes.HcpComponent)
  else if bool_decide (segments = ["employer"]) then Some (["employer"], Routes.EmployerComponent)
  else if bool_decide (segments = ["formulary"]) then Some (["formulary"], Routes.FormularyComponent)
  else if bool_decide (segments = ["hospital"]) then Some (["hospital"], Routes.HospitalComponent)
  else Some (["home"], Routes.HomeComponent).
Proof.
  unfold Routes.navigate. unfold Routes.routes at 2.
  cbn [Routes.recognize]. unfold Routes.matches.
  cbn [Routes.path Routes.action Routes.pathMatch].
  rewrite recognize_final_home.
  change (Routes.segments_of "") with (@nil string).
  change (Routes.segments_of "home") with ["home"].
  change (Routes.segments_of "hcp") with ["hcp"].
  change (Routes.segments_of "employer") with ["employer"].
  change (Routes.segments_of "formulary") with ["formulary"].
  change (Routes.segments_of "hospital") with ["hospital"].
  repeat case_bool_decide; subst; try done.
Qed.

Lemma navigate_unknown (segments : list string) :
  segments ∉ [["home"]; ["hcp"]; ["employer"]; ["formulary"]; ["hospital"]] →
  Routes.navigate segments = Some (["home"], Routes.HomeComponent).
Proof.
  rewrite !not_elem_of_cons. intros (? & ? & ? & ? & ? & _).
  rewrite navigate_cases. by rewrite !bool_decide_eq_false_2 by done.
Qed.

Lemma navigate_own (segments : list string) :
  segments ∈ [["home"]; ["hcp"]; ["employer"]; ["formulary"]; ["hospital"]] →
  ∃ c, Routes.navigate segments = Some (segments, c).
Proof.
  rewrite !elem_of_cons, elem_of_nil.
  intros [-> | [-> | [-> | [-> | [-> | []]]]]]; eexists; by vm_compute.
Qed.

(** X20: with this route table no navigation fails.  The five paths
    [home], [hcp], [employer], [formulary] and [hospital] show their own
    component; every other URL (the empty one, longer ones, unknown ones)
    ends on [/home] with [HomeComponent], and where a navigation ends is a
    URL that stays where it is.  The targets the authentication code asks
    the router for, [/login] and [/dashboard], are among the unknown ones:
    both end on [/home]. *)
Theorem navigation_never_fails (segments : list string) :
  let own := [["home"]; ["hcp"]; ["employer"]; ["formulary"]; ["hospital"]] in
  ((segments ∈ own ∧ ∃ c, Routes.navigate segments = Some (segments, c))
   ∨ ((segments ∉ own)
      ∧ Routes.navigate segments = Some (["home"], Routes.HomeComponent)))
  ∧ ((Routes.navigate segments ≫= (fun '(u, _) => Routes.navigate u))
     = Routes.navigate segments)
  ∧ Routes.navigate (Routes.segments_of "/login") = Some (["home"], Routes.HomeComponent)
  ∧ Routes.navigate (Routes.segments_of "/dashboard") = Some (["home"], Routes.HomeComponent).
Proof.
  cbv zeta. split; [| split; [| by vm_compute]].
  - destruct (decide (segments ∈ [["home"]; ["hcp"]; ["employer"]; ["formulary"];
                                  ["hospital"]])) as [Hin | Hout].
    + left. split; [done |]. by apply navigate_own.
    + right. split; [done |]. by apply navigate_unknown.
  - destruct (decide (segments ∈ [["home"]; ["hcp"]; ["employer"]; ["formulary"];
                                  ["hospital"]])) as [Hin | Hout].
    + destruct (navigate_own _ Hin) as [c Hc]. rewrite Hc. cbn. exact Hc.
    + rewrite (navigate_unknown _ Hout). by vm_compute.
Qed.

(** ** Replies that arrive late *)

(** X21: replies act on the state they find; the last one wins.  Of two
    accepted logins the session is that of the second reply.  A failure of
    the profile request that [loadUser] sent at start-up, arriving after
    an accepted login, logs that new session out.  A success of the same
    request arriving after a logout sets the user although no token is
    stored. *)
Theorem late_replies_win (EMAIL_REGEXP : string → bool)
    (s : DialogExampleComponent.App) (email password : string) :
  (∀ r1 r2 : AuthResponse,
     let s' := Page.run_all EMAIL_REGEXP
                 [Page.SubmitReply email password (Next r1);
                  Page.SubmitReply email password (Next r2)] s in
     AuthService.getToken (fst s') = Some (token r2) ∧ userSubject (fst s') = user r2)
  ∧ (∀ (r : AuthResponse) (e : HttpErrorResponse),
       let s' := Page.run_all EMAIL_REGEXP
                   [Page.SubmitReply email password (Next r);
                    Page.ProfileReply (Error e)] s in
       AuthService.getToken (fst s') = None ∧ userSubject (fst s') = JNull)
  ∧ (∀ u : Json,
       let s' := Page.run_all EMAIL_REGEXP [Page.Logout; Page.ProfileReply (Next u)] s in
       AuthService.getToken (fst s') = None ∧ userSubject (fst s') = u
       ∧ AuthService.isAuthenticated (fst s') = false).
Proof.
  split; [| split].
  - intros r1 r2. cbv zeta. split; [apply lookup_insert_eq | done].
  - intros r e. cbv zeta. split; [apply lookup_delete_eq | done].
  - intros u. cbv zeta.
    assert (AuthService.getToken
              (fst (Page.run_all EMAIL_REGEXP [Page.Logout; Page.ProfileReply (Next u)] s))
            = None) as Hnone by apply lookup_delete_eq.
    split; [exact Hnone |]. split; [done |].
    unfold AuthService.isAuthenticated. by rewrite Hnone.
Qed.

(** ** Passwords outside ASCII *)

(** [.length] counts UTF-16 code units, not bytes. *)
Example length_counts_utf16_units :
  Js.length "pa€sw" = 5 ∧ Js.length "ééé" = 3 ∧ Js.length "😀" = 2
  ∧ Js.length "secret1" = 7.
Proof. by vm_compute. Qed.

(** Five characters, seven bytes: the form is invalid and [onSubmit]
    sends nothing.  Six accented letters are enough. *)
Example password_outside_ascii :
  let EMAIL_REGEXP := fun v : string => includes v "@" in
  let page pw :=
    (Sample.world ∅ JNull,
     {| DialogExampleComponent.loginForm :=
          {| DialogExampleComponent.email := "ann@zenith.test";
             DialogExampleComponent.password := pw |};
        DialogExampleComponent.errorMessage := "";
        DialogExampleComponent.loading := false |}) in
  DialogExampleComponent.invalid EMAIL_REGEXP
    (DialogExampleComponent.loginForm (snd (page "pa€sw"))) = true
  ∧ requests (fst (DialogExampleComponent.onSubmit EMAIL_REGEXP (page "pa€sw"))) = []
  ∧ DialogExampleComponent.loading
      (snd (DialogExampleComponent.onSubmit EMAIL_REGEXP (page "pa€sw"))) = false
  ∧ List.length
      (requests (fst (DialogExampleComponent.onSubmit EMAIL_REGEXP (page "éééééé")))) = 1%nat.
Proof. by vm_compute. Qed.
